(** * Hot-issue analyzer: tagging pipeline of the ticket system

    Shallow embedding of [server/utils/analytics/hot-issue-analyzer.ts].

    - JavaScript numbers are modelled by [number]: a finite value is kept as
      the exact rational it denotes (every binary64 value is one), next to
      [NaN] and the two infinities.  The code only compares numbers, so no
      rounding is involved on the analysis path.  The storage engine keeps
      confidences in a binary64 column and averages them in binary64.
    - The asynchronous functions run one after the other on a single
      [World]: the two tables, their id sequences, the storage clock and a
      log of the external calls made so far.  A thrown exception keeps the
      world reached at the throw (nothing is rolled back).
    - The chat model is handed to the pipeline behind the structured
      model built with the schema: a call is rejected or resolves with an
      answer the schema admits; an answer of the provider outside the
      schema is a rejected call. *)

From Stdlib Require Import String Ascii List Bool Arith ZArith QArith Lia.
From Stdlib Require Import Qreduction Qround Permutation Sorted.
From Stdlib Require Import SpecFloat.
Import ListNotations.

Local Close Scope Q_scope.
Local Open Scope string_scope.
Local Open Scope list_scope.
Local Open Scope nat_scope.

(** ** JavaScript values *)

Module JS.

(** A JavaScript number.  [Fin q] with [q == 0] stands for both zeros;
    the code never tells them apart. *)
Inductive number : Type :=
| NaN
| PosInf
| NegInf
| Fin (q : Q).

(** [a < b] on numbers; every comparison with [NaN] is false. *)
Definition lt (a b : number) : bool :=
  match a, b with
  | NaN, _ | _, NaN => false
  | _, NegInf => false
  | NegInf, _ => true
  | PosInf, _ => false
  | Fin _, PosInf => true
  | Fin p, Fin q => match (p ?= q)%Q with Lt => true | _ => false end
  end.

Definition is_nan (a : number) : bool :=
  match a with NaN => true | _ => false end.

(** [Math.max(a, b)] and [Math.min(a, b)]. *)
Definition Math_max (a b : number) : number :=
  if is_nan a || is_nan b then NaN else if lt a b then b else a.

Definition Math_min (a b : number) : number :=
  if is_nan a || is_nan b then NaN else if lt b a then b else a.

(** Truthiness of a number: [NaN] and zero are falsy. *)
Definition truthy_number (a : number) : bool :=
  match a with
  | NaN => false
  | Fin q => negb (Qeq_bool q 0%Q)
  | _ => true
  end.

(** Truthiness of a string: only the empty string is falsy. *)
Definition truthy_string (s : string) : bool :=
  match s with EmptyString => false | _ => true end.

(** [x || d] where [x] may be absent ([undefined] or [null]). *)
Definition or_string (x : option string) (d : string) : string :=
  match x with
  | Some s => if truthy_string s then s else d
  | None => d
  end.

Definition or_number (x : option number) (d : number) : number :=
  match x with
  | Some n => if truthy_number n then n else d
  | None => d
  end.

(** [!x] for an optional string. *)
Definition not_string (x : option string) : bool :=
  match x with
  | Some s => negb (truthy_string s)
  | None => true
  end.

(** A value of type [string | null | undefined]. *)
Inductive nullable : Type :=
| Undefined
| Null
| Str (s : string).

(** Number of UTF-16 code units of a string held as UTF-8 bytes: one per
    code point, two for a code point outside the basic plane. *)
Fixpoint utf16_length (s : string) : nat :=
  match s with
  | EmptyString => 0
  | String c r =>
      let b := nat_of_ascii c in
      (if (128 <=? b) && (b <? 192) then 0
       else if 240 <=? b then 2 else 1) + utf16_length r
  end.

(** Binary64, the format of a JavaScript number and of a float column:
    53 bits of precision, infinities at exponent 1024. *)
Definition prec64 : Z := 53.
Definition emax64 : Z := 1024.

(** The binary64 value nearest to a rational, ties to even. *)
Definition binary64 (q : Q) : spec_float :=
  match Qnum q with
  | Z0 => S754_zero false
  | Zpos a => SFdiv prec64 emax64 (S754_finite false a 0)
                    (S754_finite false (Qden q) 0)
  | Zneg a => SFdiv prec64 emax64 (S754_finite true a 0)
                    (S754_finite false (Qden q) 0)
  end.

(** The number a binary64 value is. *)
Definition ofBinary64 (x : spec_float) : number :=
  match x with
  | S754_zero _ => Fin 0%Q
  | S754_infinity false => PosInf
  | S754_infinity true => NegInf
  | S754_nan => NaN
  | S754_finite s m e =>
      let v := match e with
               | Zneg p => (Z.pos m # Pos.shiftl 1 (Npos p))%Q
               | _ => inject_Z (Z.pos m * 2 ^ e)
               end in
      Fin (Qred (if s then Qopp v else v))
  end.

Definition toBinary64 (a : number) : spec_float :=
  match a with
  | NaN => S754_nan
  | PosInf => S754_infinity false
  | NegInf => S754_infinity true
  | Fin q => binary64 q
  end.

(** The number a decimal literal such as [0.6] denotes. *)
Definition literal (q : Q) : number := ofBinary64 (binary64 q).

End JS.

Import JS.

(** ** Configuration and types of the module *)

Module CONFIG.
Definition MAX_EXISTING_TAGS : nat := 50.
Definition MAX_DESCRIPTION_LENGTH : nat := 24.
Definition MAX_REASONING_LENGTH : nat := 50.
Definition AI_TEMPERATURE : Q := (3 # 10)%Q.
Definition TAG_SIMILARITY_THRESHOLD : Q := (7 # 10)%Q.
Definition DEFAULT_CONFIDENCE : number := Fin (1 # 2)%Q.
End CONFIG.

(** [OPENAI_CONFIG] of [kb/config.ts], read from the environment. *)
Record OpenAIConfig : Type := {
  apiKey : option string;
  analysisModel : option string;
  baseURL : option string
}.

Record ExistingTag : Type := {
  et_name : string;
  et_description : string;
  et_usageCount : nat
}.

Module AIAnalysisResult.
Record t : Type := {
  name : string;
  description : string;
  confidence : number;
  reasoning : nullable
}.
End AIAnalysisResult.

(** What the structured completion hands back, before the code looks at
    it: every field may be absent. *)
Record RawAnalysis : Type := {
  raw_name : option string;
  raw_description : option string;
  raw_confidence : option number;
  raw_reasoning : nullable
}.

(** [hotIssueAnalysisSchema]: the shape asked of the completion service.
    The code hands it to the structured-output call and does not test it
    again; what the provider's library does with it is not part of this
    module. *)
Definition hotIssueAnalysisSchema (r : RawAnalysis) : bool :=
  match raw_name r, raw_description r, raw_confidence r with
  | Some _, Some d, Some c =>
      (utf16_length d <=? CONFIG.MAX_DESCRIPTION_LENGTH)
      && negb (is_nan c) && negb (lt c (Fin 0%Q)) && negb (lt (Fin 1%Q) c)
  | _, _, _ => false
  end.

(** The object literal returned by [analyzeWithAI] (lines 259-264). *)
Definition clampConfidence (c : option number) : number :=
  Math_min (Math_max (or_number c CONFIG.DEFAULT_CONFIDENCE) (Fin 0%Q)) (Fin 1%Q).

Definition normalizeResult (result : RawAnalysis) : AIAnalysisResult.t :=
  {| AIAnalysisResult.name := or_string (raw_name result) "其他问题";
     AIAnalysisResult.description :=
       or_string (raw_description result) "未明确分类的问题";
     AIAnalysisResult.confidence := clampConfidence (raw_confidence result);
     AIAnalysisResult.reasoning := raw_reasoning result |}.

(** ** Relational operators of the storage engine

    Tables are lists of rows in storage order.  The operators below give
    the usual meaning of the query clauses the module builds; where SQL
    leaves an order open (rows of equal rank, [limit 1] without an order)
    the model takes storage order. *)

Module SQL.

Section Operators.
Context {A B K : Type}.

Definition innerJoin (on : A -> B -> bool) (l : list A) (r : list B)
  : list (A * B) :=
  flat_map (fun a => map (pair a) (filter (on a) r)) l.

(** A left row without partner is kept once, with a [NULL] right side. *)
Definition leftJoin (on : A -> B -> bool) (l : list A) (r : list B)
  : list (A * option B) :=
  flat_map (fun a =>
              match filter (on a) r with
              | [] => [(a, None)]
              | m => map (fun b => (a, Some b)) m
              end) l.

(** The distinct values of a list, in order of first occurrence. *)
Fixpoint distinct (eqb : K -> K -> bool) (l : list K) : list K :=
  match l with
  | [] => []
  | k :: r => k :: filter (fun k' => negb (eqb k k')) (distinct eqb r)
  end.

(** [GROUP BY key]: one group per distinct key, holding its rows. *)
Definition groupBy (eqb : K -> K -> bool) (key : A -> K) (rows : list A)
  : list (K * list A) :=
  map (fun k => (k, filter (fun r => eqb (key r) k) rows))
      (distinct eqb (map key rows)).

(** [ORDER BY rank DESC], stable. *)
Fixpoint insertDesc (rank : A -> nat) (x : A) (l : list A) : list A :=
  match l with
  | [] => [x]
  | y :: r => if rank y <=? rank x then x :: y :: r
              else y :: insertDesc rank x r
  end.

Fixpoint orderByDesc (rank : A -> nat) (l : list A) : list A :=
  match l with
  | [] => []
  | x :: r => insertDesc rank x (orderByDesc rank r)
  end.

Definition limit (n : nat) (l : list A) : list A := firstn n l.

(** [count(col)]: the rows whose column is not [NULL]. *)
Definition count (col : list (option B)) : nat :=
  List.length (filter (fun c => match c with Some _ => true | None => false end) col).

End Operators.

(** [avg(col)] over a float column: [NULL] on an empty group, else the
    binary64 sum of the values, taken in storage order, divided in binary64
    by their number. *)
Definition avg (col : list number) : option number :=
  match col with
  | [] => None
  | _ =>
      Some (ofBinary64
              (SFdiv prec64 emax64
                 (fold_left (SFadd prec64 emax64) (map toBinary64 col)
                            (S754_zero false))
                 (binary_normalize prec64 emax64
                    (Z.of_nat (List.length col)) 0 false)))
  end.

End SQL.

(** ** Storage *)

Record TagRow : Type := {
  tag_id : nat;
  tag_name : string;
  tag_description : string;
  tag_isAiGenerated : bool
}.

Record TicketTagRow : Type := {
  tt_id : nat;
  tt_ticketId : string;
  tt_tagId : nat;
  tt_confidence : number;
  tt_isAiGenerated : bool;
  tt_createdAt : Z
}.

(** One block of a multimodal user message ([MMItem]). *)
Inductive MMItem : Type :=
| TextItem (text : string)
| ImageUrlItem (url : string).

(** What [ChatOpenAI] is built with and invoked on. *)
Record Request : Type := {
  rq_apiKey : option string;
  rq_model : option string;
  rq_temperature : Q;
  rq_baseURL : option string;
  rq_system : string;
  rq_user : list MMItem
}.

(** The external calls, in the order they are made. *)
Inductive Event : Type :=
| SelectTopTags
| SelectTagByName (n : string)
| InsertTag (n d : string)
| SelectLink (ticketId : string) (tagId : nat)
| InsertLink (ticketId : string) (tagId : nat) (c : number)
| Invoke (rq : Request)
| SelectStats (start stop : Z).

Record World : Type := {
  tags : list TagRow;
  ticketsTags : list TicketTagRow;
  tagSeq : nat;
  linkSeq : nat;
  now : Z;
  log : list Event
}.

Definition emit (e : Event) (w : World) : World :=
  {| tags := tags w; ticketsTags := ticketsTags w; tagSeq := tagSeq w;
     linkSeq := linkSeq w; now := now w; log := log w ++ [e] |}.

(** ** Promises: state and exceptions *)

Inductive Exn : Type :=
| Error (message : string)
| ServiceError (detail : string)
| ZodError.

Inductive Outcome (A : Type) : Type :=
| Resolved (a : A)
| Rejected (e : Exn).
Arguments Resolved {A} a.
Arguments Rejected {A} e.

Definition Async (A : Type) : Type := World -> Outcome A * World.

Definition ret {A} (a : A) : Async A := fun w => (Resolved a, w).

Definition throw {A} (e : Exn) : Async A := fun w => (Rejected e, w).

Definition bind {A B} (m : Async A) (k : A -> Async B) : Async B :=
  fun w => match m w with
           | (Resolved a, w') => k a w'
           | (Rejected e, w') => (Rejected e, w')
           end.

Declare Scope async_scope.
Delimit Scope async_scope with async.
Notation "'await' x <- m ;; k" := (bind m (fun x => k))
  (at level 61, x name, m at next level, right associativity) : async_scope.
Notation "m ;; k" := (bind m (fun _ => k))
  (at level 61, right associativity) : async_scope.
Local Open Scope async_scope.

(** ** The queries and the pipeline *)

Definition tagKey : Type := nat * string * string.

Definition tagKey_eqb (a b : tagKey) : bool :=
  let '(i, n, d) := a in
  let '(j, m, e) := b in
  (i =? j) && String.eqb n m && String.eqb d e.

Definition keyOf (t : TagRow) : tagKey :=
  (tag_id t, tag_name t, tag_description t).

Definition onTagId (t : TagRow) (l : TicketTagRow) : bool :=
  tag_id t =? tt_tagId l.

(** The row selected by [getExistingTags] before it is mapped. *)
Record TagUsage : Type := {
  tu_tagId : nat;
  tu_name : string;
  tu_description : string;
  tu_usageCount : nat
}.

Definition selectTopTags (w : World) : list TagUsage :=
  SQL.limit CONFIG.MAX_EXISTING_TAGS
    (SQL.orderByDesc tu_usageCount
       (map (fun g : tagKey * list (TagRow * option TicketTagRow) =>
               let '(i, n, d) := fst g in
               {| tu_tagId := i; tu_name := n; tu_description := d;
                  tu_usageCount :=
                    SQL.count (map (fun r => option_map tt_id (snd r)) (snd g)) |})
            (SQL.groupBy tagKey_eqb (fun r => keyOf (fst r))
               (SQL.leftJoin onTagId (tags w) (ticketsTags w))))).

Definition getExistingTags : Async (list ExistingTag) :=
  fun w =>
    let tagResults := selectTopTags w in
    (Resolved (map (fun t => {| et_name := tu_name t;
                                et_description := tu_description t;
                                et_usageCount := tu_usageCount t |})
                   tagResults),
     emit SelectTopTags w).

(** [select().from(tags).where(eq(tags.name, name)).limit(1)] *)
Definition selectTagByName (n : string) : Async (list TagRow) :=
  fun w =>
    (Resolved (SQL.limit 1 (filter (fun t => String.eqb (tag_name t) n) (tags w))),
     emit (SelectTagByName n) w).

(** [insert(tags).values(..).returning({ id })]: the id comes from the
    table's sequence. *)
Definition insertTag (n d : string) : Async (list nat) :=
  fun w =>
    let i := S (tagSeq w) in
    (Resolved [i],
     emit (InsertTag n d)
       {| tags := tags w ++ [{| tag_id := i; tag_name := n;
                                tag_description := d;
                                tag_isAiGenerated := true |}];
          ticketsTags := ticketsTags w; tagSeq := i; linkSeq := linkSeq w;
          now := now w; log := log w |}).

Definition findOrCreateTag (n d : string) : Async nat :=
  await existing <- selectTagByName n ;;
  match existing with
  | e0 :: _ => ret (tag_id e0)
  | [] =>
      await result <- insertTag n d ;;
      match result with
      | [] => throw (Error ("创建标签失败: " ++ n))
      | i :: _ => ret i
      end
  end.

Definition isTicketTagLinked (ticketId : string) (tagId : nat) : Async bool :=
  fun w =>
    let existingLink :=
      SQL.limit 1 (filter (fun l => String.eqb (tt_ticketId l) ticketId
                                    && (tt_tagId l =? tagId))
                          (ticketsTags w)) in
    (Resolved (0 <? List.length existingLink),
     emit (SelectLink ticketId tagId) w).

(** The insert leaves [id] and [createdAt] to the table's defaults. *)
Definition linkTicketToTag (ticketId : string) (tagId : nat) (c : number)
  : Async unit :=
  fun w =>
    let i := S (linkSeq w) in
    (Resolved tt,
     emit (InsertLink ticketId tagId c)
       {| tags := tags w;
          ticketsTags := ticketsTags w ++
            [{| tt_id := i; tt_ticketId := ticketId; tt_tagId := tagId;
                tt_confidence := c; tt_isAiGenerated := true;
                tt_createdAt := now w |}];
          tagSeq := tagSeq w; linkSeq := i; now := now w; log := log w |}).

(** Decimal rendering of a count, as a template literal prints it. *)
Fixpoint digits (fuel n : nat) (acc : string) : string :=
  match fuel with
  | 0 => acc
  | S fuel' =>
      let acc' := String (ascii_of_nat (48 + n mod 10)) acc in
      if n / 10 =? 0 then acc' else digits fuel' (n / 10) acc'
  end.

Definition showNat (n : nat) : string := digits (S n) n EmptyString.

Fixpoint join (sep : string) (l : list string) : string :=
  match l with
  | [] => EmptyString
  | [s] => s
  | s :: r => (s ++ sep ++ join sep r)%string
  end.

Definition newline : string := String (ascii_of_nat 10) EmptyString.

Definition tagsText (existingTags : list ExistingTag) : string :=
  if 0 <? List.length existingTags
  then join newline
         (map (fun t => ("- " ++ et_name t ++ ": " ++ et_description t
                         ++ " (使用次数: " ++ showNat (et_usageCount t) ++ ")")%string)
              existingTags)
  else "暂无现有标签".
Definition dq : string := String (ascii_of_nat 34) EmptyString.

(** [${CONFIG.TAG_SIMILARITY_THRESHOLD * 100}]: the product is a whole
    number and prints as one. *)
Definition similarityPercent : string :=
  showNat (Z.to_nat (Qfloor (CONFIG.TAG_SIMILARITY_THRESHOLD * 100)%Q)).

(** The instruction text, line by line. *)
Definition buildSystemPrompt (existingTags : list ExistingTag) : string :=
  join newline
    ["你是 Sealos 工单系统的标签分析助手。请仅基于工单的“标题/描述/图片”生成结构化标签结果。";
     EmptyString;
     "输出字段:";
     ("- name: 标签类别。优先复用现有标签（见下方列表）；相似度 ≥" ++ similarityPercent ++ "% 归入现有项；否则创建新的“类别名”，保持简洁（如：部署问题/网络问题/身份认证/镜像仓库/数据库）。")%string;
     ("- description: 12-" ++ showNat CONFIG.MAX_DESCRIPTION_LENGTH ++ " 个中文字符（不含空格），必须包含关键信息，且“严格≤" ++ showNat CONFIG.MAX_DESCRIPTION_LENGTH ++ "字”，绝不允许超过。推荐模板：")%string;
     "  [模块/服务/系统名] + [现象/错误码/关键报错词] + [阶段/资源]";
     "  示例：applaunchpad 镜像拉取失败 ImagePullBackOff";
     "- confidence: 0-1 之间；信息不足或歧义高时 ≤0.6";
     ("- reasoning(可选): 简要说明依据或指出缺失信息（≤" ++ showNat CONFIG.MAX_REASONING_LENGTH ++ "字）")%string;
     EmptyString;
     "强制要求:";
     "- “description” 禁止仅输出“XX问题/信息不足”等泛化词；必须包含至少一项具体实体：";
     "  - 模块/服务名（如: applaunchpad, devbox, ingress, registry, gateway, postgres, mysql, redis）";
     "  - 资源或对象（如: Deployment/Pod/Job/Service/Ingress + 名称）";
     "  - 错误码/关键词（如: ImagePullBackOff, CrashLoopBackOff, x509, ECONNREFUSED, 5xx, 404, TLS, 超时）";
     "  - 阶段/操作（如: 启动/部署/登录/拉取/变更/升级/备份/恢复）";
     "- 描述中出现的代码/标识符/错误关键词要如实保留原文，不要翻译或概括为“问题”。";
     "- 如果文本或图片无法识别出“模块名/错误码/资源名”中的任意一类，降低 confidence，并在 reasoning 明确指出缺失项（如“缺少应用名/错误码”）。";
     (" - 若用户输入包含大段“代码/日志”，忽略实现细节，不要复制粘贴长代码；只提取“模块名/资源名/错误关键词/错误码/阶段”这类短关键词到 description；必要时进行压缩以满足≤" ++ showNat CONFIG.MAX_DESCRIPTION_LENGTH ++ "字。")%string;
     " - description 必须为单行短语，不要包含换行或多余空格、不要添加标点装饰或引号。";
     EmptyString;
     "判定流程建议:";
     "1) 从标题/描述/图片中抽取命名实体与关键错误词（模块/资源/错误码/阶段/环境词：公网/内网/集群/租户/namespace）。";
     ("2) 先尝试与现有标签 name 匹配（≥" ++ similarityPercent ++ "%），命中则复用该 name；否则产出新的“类别性” name。")%string;
     ("3) 用“模块/错误关键词/阶段或资源”拼成 description，控制在 12-" ++ showNat CONFIG.MAX_DESCRIPTION_LENGTH ++ " 字，优先保留关键信息，避免冗余。")%string;
     "4) 无法确定则降低 confidence，并在 reasoning 说明“不足之处”。";
     EmptyString;
     "现有标签（按使用频率排序）:";
     tagsText existingTags;
     EmptyString;
     "正反例:";
     EmptyString;
     "正例1";
     ("输入标题: " ++ dq ++ "applaunchpad 部署失败 ImagePullBackOff" ++ dq)%string;
     "输出:";
     "{";
     ("  " ++ dq ++ "name" ++ dq ++ ": " ++ dq ++ "部署问题" ++ dq ++ ",")%string;
     ("  " ++ dq ++ "description" ++ dq ++ ": " ++ dq ++ "applaunchpad 镜像拉取失败 ImagePullBackOff" ++ dq ++ ",")%string;
     ("  " ++ dq ++ "confidence" ++ dq ++ ": 0.86,")%string;
     ("  " ++ dq ++ "reasoning" ++ dq ++ ": " ++ dq ++ "标题含模块与错误码，指向部署阶段镜像拉取失败" ++ dq)%string;
     "}";
     EmptyString;
     "正例2";
     ("输入标题: " ++ dq ++ "编辑器打不开，页面 404" ++ dq)%string;
     "输出:";
     "{";
     ("  " ++ dq ++ "name" ++ dq ++ ": " ++ dq ++ "界面问题" ++ dq ++ ",")%string;
     ("  " ++ dq ++ "description" ++ dq ++ ": " ++ dq ++ "devbox 页面 404 无法加载" ++ dq ++ ",")%string;
     ("  " ++ dq ++ "confidence" ++ dq ++ ": 0.82,")%string;
     ("  " ++ dq ++ "reasoning" ++ dq ++ ": " ++ dq ++ "编辑器=devbox，现象为 404" ++ dq)%string;
     "}";
     EmptyString;
     "正例3";
     ("输入标题: " ++ dq ++ "公网连接卡住，访问外网超时 30s" ++ dq)%string;
     "输出:";
     "{";
     ("  " ++ dq ++ "name" ++ dq ++ ": " ++ dq ++ "网络问题" ++ dq ++ ",")%string;
     ("  " ++ dq ++ "description" ++ dq ++ ": " ++ dq ++ "公网 egress 超时 30s" ++ dq ++ ",")%string;
     ("  " ++ dq ++ "confidence" ++ dq ++ ": 0.8")%string;
     "}";
     EmptyString;
     "正例4";
     ("输入标题: " ++ dq ++ "数据库连接失败 ECONNREFUSED" ++ dq)%string;
     "输出:";
     "{";
     ("  " ++ dq ++ "name" ++ dq ++ ": " ++ dq ++ "数据库问题" ++ dq ++ ",")%string;
     ("  " ++ dq ++ "description" ++ dq ++ ": " ++ dq ++ "postgres 连接失败 ECONNREFUSED" ++ dq ++ ",")%string;
     ("  " ++ dq ++ "confidence" ++ dq ++ ": 0.84")%string;
     "}";
     EmptyString;
     "反例（禁止）:";
     ("- " ++ dq ++ "应用无法启动" ++ dq ++ " / " ++ dq ++ "启动问题" ++ dq ++ " / " ++ dq ++ "信息不足" ++ dq ++ " / " ++ dq ++ "编辑器问题" ++ dq ++ " / " ++ dq ++ "公网连接问题" ++ dq ++ "（过于泛化，缺少实体与错误关键词）")%string;
     EmptyString].

(** The chat model: whatever the provider answers to a request. *)
Definition ChatModel : Type := Request -> Outcome RawAnalysis.

(** The structured model [model.withStructuredOutput(hotIssueAnalysisSchema)]:
    a call either is rejected or resolves with an answer that the schema
    admits. *)
Record Completion : Type := {
  answer :> Request -> Outcome RawAnalysis;
  answer_in_schema :
    forall rq raw, answer rq = Resolved raw -> hotIssueAnalysisSchema raw = true
}.

(** What the structured model makes of the provider's answer: an answer
    outside the schema is thrown as a validation error. *)
Definition parse (o : Outcome RawAnalysis) : Outcome RawAnalysis :=
  match o with
  | Resolved raw =>
      if hotIssueAnalysisSchema raw then Resolved raw else Rejected ZodError
  | Rejected e => Rejected e
  end.

Definition withStructuredOutput (model : ChatModel) : Completion.
Proof.
  refine {| answer := fun rq => parse (model rq) |}.
  intros rq raw. unfold parse.
  destruct (model rq) as [r|e]; [|discriminate].
  destruct (hotIssueAnalysisSchema r) eqn:E; [|discriminate].
  intros H. inversion H; subst. exact E.
Defined.

Definition invoke (service : Completion) (rq : Request) : Async RawAnalysis :=
  fun w => (service rq, emit (Invoke rq) w).

Section Pipeline.

(** The rich-text document and its two extractors live in [kb/tools.ts]
    and [types.ts]; the pipeline is written over any such document. *)
Variable JSONContentZod : Type.
Variable extractTextWithoutImages : JSONContentZod -> string.
Variable extractImageUrls : JSONContentZod -> list string.

Definition buildUserContent (title : string) (description : JSONContentZod)
  : list MMItem :=
  let prompt := ("标题: " ++ title ++ newline ++ "描述: "
                 ++ extractTextWithoutImages description)%string in
  let content := [TextItem prompt] in
  let imageUrls := extractImageUrls description in
  fold_left (fun content url => content ++ [ImageUrlItem url])
            (firstn 6 imageUrls) content.

Definition analyzeWithAI (cfg : OpenAIConfig) (service : Completion)
           (title : string) (description : JSONContentZod)
           (existingTags : list ExistingTag) : Async AIAnalysisResult.t :=
  let systemPrompt := buildSystemPrompt existingTags in
  let userContent := buildUserContent title description in
  await result <- invoke service
                    {| rq_apiKey := apiKey cfg;
                       rq_model := analysisModel cfg;
                       rq_temperature := CONFIG.AI_TEMPERATURE;
                       rq_baseURL := baseURL cfg;
                       rq_system := systemPrompt;
                       rq_user := userContent |} ;;
  ret (normalizeResult result).

Definition analyzeAndSaveHotIssue (cfg : OpenAIConfig) (service : Completion)
           (ticketId title : string) (description : JSONContentZod)
  : Async unit :=
  if not_string (apiKey cfg) then throw (Error "OPENAI_API_KEY 未配置")
  else if not_string (analysisModel cfg)
  then throw (Error "ANALYSIS_MODEL 未配置")
  else
    await existingTags <- getExistingTags ;;
    await analysis <- analyzeWithAI cfg service title description existingTags ;;
    await tagId <- findOrCreateTag (AIAnalysisResult.name analysis)
                                   (AIAnalysisResult.description analysis) ;;
    await isLinked <- isTicketTagLinked ticketId tagId ;;
    if negb isLinked
    then linkTicketToTag ticketId tagId (AIAnalysisResult.confidence analysis)
    else ret tt.

End Pipeline.

(** ** Statistics *)

Record TimeRange : Type := {
  start : Z;
  end_ : Z
}.

Record TagStat : Type := {
  tag : string;
  tagDescription : string;
  count : nat;
  avgConfidence : option number
}.

Definition inRange (timeRange : TimeRange) (l : TicketTagRow) : bool :=
  ((start timeRange <=? tt_createdAt l) && (tt_createdAt l <=? end_ timeRange))%Z.

Definition selectTagStats (timeRange : TimeRange) (w : World) : list TagStat :=
  SQL.orderByDesc count
    (map (fun g : tagKey * list (TagRow * TicketTagRow) =>
            let '(_, n, d) := fst g in
            {| tag := n; tagDescription := d;
               count := SQL.count (map (fun r => Some (tt_id (snd r))) (snd g));
               avgConfidence :=
                 SQL.avg (map (fun r => tt_confidence (snd r)) (snd g)) |})
         (SQL.groupBy tagKey_eqb (fun r => keyOf (fst r))
            (filter (fun r => inRange timeRange (snd r))
               (SQL.innerJoin onTagId (tags w) (ticketsTags w))))).

Record HotIssuesStats : Type := {
  tagStats : list TagStat
}.

Definition getHotIssuesStats (timeRange : TimeRange) : Async HotIssuesStats :=
  fun w =>
    (Resolved {| tagStats := selectTagStats timeRange w |},
     emit (SelectStats (start timeRange) (end_ timeRange)) w).

(** ** Derived notions used in the statements *)

(** The events a computation adds to the log when run from [w]. *)
Definition trace {A} (m : Async A) (w : World) : list Event :=
  skipn (List.length (log w)) (log (snd (m w))).

Definition linksOf (ticketId : string) (tagId : nat) (w : World)
  : list TicketTagRow :=
  filter (fun l => String.eqb (tt_ticketId l) ticketId && (tt_tagId l =? tagId))
         (ticketsTags w).

Definition tagNamed (n : string) (w : World) : option TagRow :=
  find (fun t => String.eqb (tag_name t) n) (tags w).

(** A number of the closed unit interval. *)
Definition unitInterval (c : number) : Prop :=
  exists q, c = Fin q /\ (0 <= q)%Q /\ (q <= 1)%Q.

(** Every tag id was drawn from the sequence, once. *)
Definition tagsKeyed (w : World) : Prop :=
  NoDup (map tag_id (tags w)) /\ Forall (fun t => tag_id t <= tagSeq w) (tags w).

(** At most one link for each ticket and tag. *)
Definition linksUnique (w : World) : Prop :=
  forall ticketId tagId, List.length (linksOf ticketId tagId w) <= 1.

Definition isInsertLink (e : Event) : bool :=
  match e with InsertLink _ _ _ => true | _ => false end.

(** The links of a tag that fall in a time range. *)
Definition linksInRange (timeRange : TimeRange) (w : World) (t : TagRow)
  : list TicketTagRow :=
  filter (fun l => onTagId t l && inRange timeRange l) (ticketsTags w).

Definition usageOf (w : World) (t : TagRow) : nat :=
  List.length (filter (onTagId t) (ticketsTags w)).

(** The tag id [findOrCreateTag] answers for a name: the first stored tag
    of that name, else the next id of the sequence. *)
Definition resolvedTagId (n : string) (w : World) : nat :=
  match tagNamed n w with
  | Some e => tag_id e
  | None => S (tagSeq w)
  end.

(** The vocabulary [getExistingTags] reads in [w]. *)
Definition existingTagsOf (w : World) : list ExistingTag :=
  match fst (getExistingTags w) with
  | Resolved l => l
  | Rejected _ => []
  end.

Section Requests.

Variable JSONContentZod : Type.
Variable extractTextWithoutImages : JSONContentZod -> string.
Variable extractImageUrls : JSONContentZod -> list string.

(** The request [analyzeWithAI] builds for a vocabulary. *)
Definition requestWith (cfg : OpenAIConfig) (title : string)
           (description : JSONContentZod) (existingTags : list ExistingTag)
  : Request :=
  {| rq_apiKey := apiKey cfg;
     rq_model := analysisModel cfg;
     rq_temperature := CONFIG.AI_TEMPERATURE;
     rq_baseURL := baseURL cfg;
     rq_system := buildSystemPrompt existingTags;
     rq_user := buildUserContent JSONContentZod extractTextWithoutImages
                                 extractImageUrls title description |}.

(** The request the orchestrator sends when started in [w]. *)
Definition requestFor (cfg : OpenAIConfig) (title : string)
           (description : JSONContentZod) (w : World) : Request :=
  requestWith cfg title description (existingTagsOf w).

(** The stores the module itself can produce: from empty tables, by runs
    of the orchestrator, by the statistics query and by the passing of
    time. *)
Inductive Reachable : World -> Prop :=
| reach_empty (t : Z) :
    Reachable {| tags := []; ticketsTags := []; tagSeq := 0; linkSeq := 0;
                 now := t; log := [] |}
| reach_run (w : World) cfg service ticketId title description :
    Reachable w ->
    Reachable (snd (analyzeAndSaveHotIssue JSONContentZod extractTextWithoutImages
                      extractImageUrls cfg service ticketId title description w))
| reach_stats (w : World) timeRange :
    Reachable w -> Reachable (snd (getHotIssuesStats timeRange w))
| reach_tick (w : World) (t : Z) :
    Reachable w ->
    Reachable {| tags := tags w; ticketsTags := ticketsTags w;
                 tagSeq := tagSeq w; linkSeq := linkSeq w; now := t;
                 log := log w |}.

End Requests.

(** Closed form of the world a successful run leaves: [rq] is the request
    sent, [a] the normalised analysis. *)
Definition savedWorld (rq : Request) (ticketId : string)
           (a : AIAnalysisResult.t) (w : World) : World :=
  let n := AIAnalysisResult.name a in
  let d := AIAnalysisResult.description a in
  let c := AIAnalysisResult.confidence a in
  let g := resolvedTagId n w in
  let fresh := match tagNamed n w with Some _ => false | None => true end in
  let linked := match linksOf ticketId g w with [] => false | _ => true end in
  {| tags := if fresh
             then tags w ++ [{| tag_id := g; tag_name := n; tag_description := d;
                                tag_isAiGenerated := true |}]
             else tags w;
     ticketsTags := if linked then ticketsTags w
                    else ticketsTags w ++
                         [{| tt_id := S (linkSeq w); tt_ticketId := ticketId;
                             tt_tagId := g; tt_confidence := c;
                             tt_isAiGenerated := true; tt_createdAt := now w |}];
     tagSeq := if fresh then g else tagSeq w;
     linkSeq := if linked then linkSeq w else S (linkSeq w);
     now := now w;
     log := log w ++ [SelectTopTags; Invoke rq; SelectTagByName n]
                  ++ (if fresh then [InsertTag n d] else [])
                  ++ [SelectLink ticketId g]
                  ++ (if linked then [] else [InsertLink ticketId g c]) |}.

(** Both the credential and the model identifier are present. *)
Definition configured (cfg : OpenAIConfig) : Prop :=
  not_string (apiKey cfg) = false /\ not_string (analysisModel cfg) = false.

(** Ranks do not increase along the list. *)
Definition descending {A} (rank : A -> nat) (l : list A) : Prop :=
  StronglySorted (fun x y => rank y <= rank x) l.

(** The statistics row of a tag over a time range. *)
Definition statOf (timeRange : TimeRange) (w : World) (t : TagRow) : TagStat :=
  {| tag := tag_name t;
     tagDescription := tag_description t;
     count := List.length (linksInRange timeRange w t);
     avgConfidence := SQL.avg (map tt_confidence (linksInRange timeRange w t)) |}.

Definition hasLinksInRange (timeRange : TimeRange) (w : World) (t : TagRow)
  : bool :=
  match linksInRange timeRange w t with [] => false | _ => true end.

(** The vocabulary row of a tag with its usage count. *)
Definition usageRow (w : World) (t : TagRow) : TagUsage :=
  {| tu_tagId := tag_id t; tu_name := tag_name t;
     tu_description := tag_description t; tu_usageCount := usageOf w t |}.

Definition asExistingTag (t : TagUsage) : ExistingTag :=
  {| et_name := tu_name t; et_description := tu_description t;
     et_usageCount := tu_usageCount t |}.

(** The line [buildSystemPrompt] prints for one tag of the vocabulary. *)
Definition tagLine (t : ExistingTag) : string :=
  "- " ++ et_name t ++ ": " ++ et_description t
       ++ " (使用次数: " ++ showNat (et_usageCount t) ++ ")".

(** [x] occurs in [s]. *)
Definition occursIn (x s : string) : Prop :=
  exists before after, s = (before ++ x ++ after)%string.

(** No two stored tags share a name. *)
Definition namesUnique (w : World) : Prop :=
  NoDup (map tag_name (tags w)).

(** Every link points at a stored tag. *)
Definition linksReferTags (w : World) : Prop :=
  forall l, In l (ticketsTags w) -> In (tt_tagId l) (map tag_id (tags w)).

(** Every link id was drawn from the sequence, once. *)
Definition linksKeyed (w : World) : Prop :=
  NoDup (map tt_id (ticketsTags w)) /\
  Forall (fun l => tt_id l <= linkSeq w) (ticketsTags w).

(** Every row was written by the analyzer: marked as generated, and with a
    confidence of the unit interval on a link. *)
Definition rowsGenerated (w : World) : Prop :=
  Forall (fun t => tag_isAiGenerated t = true) (tags w) /\
  Forall (fun l => tt_isAiGenerated l = true /\ unitInterval (tt_confidence l))
         (ticketsTags w).

(** An event that writes to storage. *)
Definition isWrite (e : Event) : bool :=
  match e with InsertTag _ _ | InsertLink _ _ _ => true | _ => false end.

Definition isInvoke (e : Event) : bool :=
  match e with Invoke _ => true | _ => false end.

(** A link falls in the range and its tag is stored. *)
Definition countedLink (timeRange : TimeRange) (w : World) (l : TicketTagRow)
  : bool :=
  inRange timeRange l && existsb (fun t => onTagId t l) (tags w).

(** ** A concrete setting for the examples *)

Module Sample.

Record Doc : Type := {
  doc_text : string;
  doc_images : list string
}.

Definition cfg : OpenAIConfig :=
  {| apiKey := Some "sk-test"; analysisModel := Some "analysis-model";
     baseURL := None |}.

Definition noKey : OpenAIConfig :=
  {| apiKey := None; analysisModel := Some "analysis-model"; baseURL := None |}.

Definition emptyWorld : World :=
  {| tags := []; ticketsTags := []; tagSeq := 0; linkSeq := 0;
     now := 1000%Z; log := [] |}.

(** A provider that gives one answer to every request, behind the
    structured model. *)
Definition answers (raw : RawAnalysis) : Completion :=
  withStructuredOutput (fun _ => Resolved raw).

Definition rawWith (n d : string) (c : number) : RawAnalysis :=
  {| raw_name := Some n; raw_description := Some d;
     raw_confidence := Some c; raw_reasoning := Null |}.

Definition ticket : Doc :=
  {| doc_text := "ingress 502"; doc_images := [] |}.

Definition run (c : OpenAIConfig) (service : Completion) (ticketId : string)
  : Async unit :=
  analyzeAndSaveHotIssue Doc doc_text doc_images c service ticketId
                         "gateway" ticket.

Definition nineImages : Doc :=
  {| doc_text := "see screenshots";
     doc_images := ["u1"; "u2"; "u3"; "u4"; "u5"; "u6"; "u7"; "u8"; "u9"] |}.

Definition tagA : TagRow :=
  {| tag_id := 1; tag_name := "A"; tag_description := "a";
     tag_isAiGenerated := true |}.
Definition tagB : TagRow :=
  {| tag_id := 2; tag_name := "B"; tag_description := "b";
     tag_isAiGenerated := true |}.

(** A link whose confidence is the number the decimal [c] denotes. *)
Definition link (i : nat) (ticketId : string) (g : nat) (c : Q) (at_ : Z)
  : TicketTagRow :=
  {| tt_id := i; tt_ticketId := ticketId; tt_tagId := g;
     tt_confidence := literal c; tt_isAiGenerated := true;
     tt_createdAt := at_ |}.

(** Three links to A, one to B, and one to B outside the range below. *)
Definition statsWorld : World :=
  {| tags := [tagB; tagA];
     ticketsTags := [link 1 "t1" 1 (6 # 10) 10; link 2 "t2" 2 (5 # 10) 20;
                     link 3 "t3" 1 (8 # 10) 30; link 4 "t4" 1 1 40;
                     link 5 "t5" 2 (9 # 10) 99];
     tagSeq := 2; linkSeq := 5; now := 100%Z; log := [] |}.

Definition range : TimeRange := {| start := 10%Z; end_ := 40%Z |}.

(** A vocabulary of [n] tags, the [i]-th one used [i mod 3] times. *)
Definition manyTags (n : nat) : list TagRow :=
  map (fun i => {| tag_id := S i; tag_name := showNat i;
                   tag_description := "d"; tag_isAiGenerated := true |})
      (seq 0 n).

Definition manyLinks (n : nat) : list TicketTagRow :=
  flat_map (fun i => map (fun j => link (3 * i + j) "t" (S i) (1 # 2) 0)
                         (seq 0 (i mod 3)))
           (seq 0 n).

Definition bigWorld : World :=
  {| tags := manyTags 51; ticketsTags := manyLinks 51; tagSeq := 51;
     linkSeq := 200; now := 0%Z; log := [] |}.

(** A tag [A] is stored already. *)
Definition worldWithA : World :=
  {| tags := [tagA]; ticketsTags := []; tagSeq := 1; linkSeq := 0;
     now := 1000%Z; log := [] |}.

Definition longDescription : string :=
  "applaunchpad deployment image pull failure".

(** An answer with every field absent. *)
Definition missing : RawAnalysis :=
  {| raw_name := None; raw_description := None; raw_confidence := None;
     raw_reasoning := Undefined |}.

(** Two runs for ticket [T1] whose answers name the same tag. *)
Definition firstRun : Async unit :=
  run cfg (answers (rawWith "net" "ingress 502" (Fin (42 # 100)%Q))) "T1".

Definition secondRun : Async unit :=
  run cfg (answers (rawWith "net" "gateway timeout" (Fin (9 # 10)%Q))) "T1".

Definition afterFirst : World := snd (firstRun emptyWorld).

Definition afterSecond : World := snd (secondRun afterFirst).

(** A completion service that is down. *)
Definition fails : Completion :=
  withStructuredOutput (fun _ => Rejected (ServiceError "timeout")).

(** A range whose end lies before its start. *)
Definition invertedRange : TimeRange := {| start := 40%Z; end_ := 10%Z |}.

(** An answer whose name and description are present and empty. *)
Definition emptyNamed : RawAnalysis :=
  rawWith EmptyString EmptyString (Fin (42 # 100)%Q).

(** An answer within the schema. *)
Definition conforming : RawAnalysis :=
  rawWith "net" "ingress 502" (Fin (42 # 100)%Q).

End Sample.


(** * Properties *)

(** ** Numbers and the normalisation of the completion result *)

Lemma lt_Fin (p q : Q) : lt (Fin p) (Fin q) = true <-> (p < q)%Q.
Proof.
  unfold lt. rewrite Qlt_alt. destruct (p ?= q)%Q; split; congruence.
Qed.

Lemma lt_Fin_false (p q : Q) : lt (Fin p) (Fin q) = false <-> (q <= p)%Q.
Proof.
  pose proof (lt_Fin p q) as H. pose proof (Qnot_lt_le p q) as H1.
  pose proof (Qle_not_lt q p) as H2.
  destruct (lt (Fin p) (Fin q)); split; intros H3; try congruence.
  - exfalso. apply (H2 H3). now apply H.
  - apply H1. intros H4. apply H in H4. discriminate.
Qed.

Lemma truthy_Fin (q : Q) : truthy_number (Fin q) = false <-> (q == 0)%Q.
Proof.
  simpl. rewrite <- Qeq_bool_iff. destruct (Qeq_bool q 0); simpl; split; congruence.
Qed.

Lemma unitInterval_Fin (q : Q) : (0 <= q)%Q -> (q <= 1)%Q -> unitInterval (Fin q).
Proof. intros; exists q; auto. Qed.

Lemma unitInterval_default : unitInterval CONFIG.DEFAULT_CONFIDENCE.
Proof. apply unitInterval_Fin; discriminate. Qed.

Create HintDb clamp.
#[local] Hint Resolve unitInterval_Fin unitInterval_default : clamp.

(** Case analysis of [min(max(x, 0), 1)] on the sign and size of [x]. *)
Lemma clamp_cases (x : number) :
  Math_min (Math_max x (Fin 0%Q)) (Fin 1%Q) =
  match x with
  | NaN => NaN
  | PosInf => Fin 1%Q
  | NegInf => Fin 0%Q
  | Fin q => if lt (Fin q) (Fin 0%Q) then Fin 0%Q
             else if lt (Fin 1%Q) (Fin q) then Fin 1%Q else Fin q
  end.
Proof.
  destruct x as [ | | | q]; try reflexivity.
  unfold Math_max; cbn [is_nan orb].
  destruct (lt (Fin q) (Fin 0%Q)) eqn:E; [reflexivity|].
  unfold Math_min; cbn [is_nan orb]. reflexivity.
Qed.

Lemma clampConfidence_unit (c : option number) : unitInterval (clampConfidence c).
Proof.
  unfold clampConfidence. rewrite clamp_cases.
  destruct c as [[ | | | q] | ]; cbn [or_number truthy_number];
    try (apply unitInterval_Fin; discriminate).
  destruct (negb (Qeq_bool q 0)); [| apply unitInterval_Fin; discriminate].
  destruct (lt (Fin q) (Fin 0%Q)) eqn:E0; [apply unitInterval_Fin; discriminate|].
  destruct (lt (Fin 1%Q) (Fin q)) eqn:E1; [apply unitInterval_Fin; discriminate|].
  apply lt_Fin_false in E0, E1. auto with clamp.
Qed.



Lemma clampConfidence_inside (r : number) :
  lt (Fin 0%Q) r = true -> lt (Fin 1%Q) r = false ->
  clampConfidence (Some r) = r.
Proof.
  intros H0 H1. unfold clampConfidence. rewrite clamp_cases.
  destruct r as [ | | | q]; try discriminate; cbn [or_number truthy_number].
  pose proof (proj1 (lt_Fin _ _) H0) as Hpos.
  assert (Hq : Qeq_bool q 0 = false).
  { destruct (Qeq_bool q 0) eqn:E; [|reflexivity].
    apply Qeq_bool_iff in E. rewrite E in Hpos. discriminate. }
  rewrite Hq; cbn [negb].
  assert (Hn : lt (Fin q) (Fin 0%Q) = false).
  { apply lt_Fin_false. now apply Qlt_le_weak. }
  now rewrite Hn, H1.
Qed.

(** A falsy confidence (absent, [NaN] or zero) becomes the default. *)
Lemma clampConfidence_falsy (c : option number) :
  match c with Some r => truthy_number r = false | None => True end ->
  clampConfidence c = CONFIG.DEFAULT_CONFIDENCE.
Proof.
  intros H. unfold clampConfidence.
  assert (E : or_number c CONFIG.DEFAULT_CONFIDENCE = CONFIG.DEFAULT_CONFIDENCE).
  { destruct c as [r|]; simpl; [now rewrite H | reflexivity]. }
  rewrite E. reflexivity.
Qed.

Lemma clampConfidence_zero (q : Q) :
  (q == 0)%Q -> clampConfidence (Some (Fin q)) = Fin (1 # 2)%Q.
Proof. intros H. apply clampConfidence_falsy. now apply truthy_Fin. Qed.

Example clamp_minus_0_3 : clampConfidence (Some (Fin (-3 # 10)%Q)) = Fin 0%Q.
Proof. reflexivity. Qed.

Example clamp_1_7 : clampConfidence (Some (Fin (17 # 10)%Q)) = Fin 1%Q.
Proof. reflexivity. Qed.

Example clamp_0_42 : clampConfidence (Some (Fin (42 # 100)%Q)) = Fin (42 # 100)%Q.
Proof. reflexivity. Qed.

Example clamp_0 : clampConfidence (Some (Fin 0%Q)) = Fin (1 # 2)%Q.
Proof. reflexivity. Qed.

Lemma or_string_absent (d : string) : or_string None d = d.
Proof. reflexivity. Qed.

Lemma or_string_empty (d : string) : or_string (Some EmptyString) d = d.
Proof. reflexivity. Qed.

Lemma or_string_present (s d : string) : s <> EmptyString -> or_string (Some s) d = s.
Proof. destruct s; [congruence | reflexivity]. Qed.

Lemma utf16_length_pos (s : string) : 0 < utf16_length s -> s <> EmptyString.
Proof. destruct s; simpl; [lia | discriminate]. Qed.

(** ** Storage operations *)

Lemma limit_1_filter {A} (p : A -> bool) (l : list A) :
  SQL.limit 1 (filter p l) = match find p l with Some e => [e] | None => [] end.
Proof.
  unfold SQL.limit. induction l as [|a l IH]; simpl; [reflexivity|].
  destruct (p a); [reflexivity | exact IH].
Qed.

Lemma find_none_app {A} (p : A -> bool) (l r : list A) :
  find p l = None -> find p (l ++ r) = find p r.
Proof.
  induction l as [|x l IH]; simpl; [reflexivity|].
  destruct (p x); [discriminate | exact IH].
Qed.

Lemma findOrCreateTag_found (n d : string) (w : World) (e : TagRow) :
  tagNamed n w = Some e ->
  findOrCreateTag n d w = (Resolved (tag_id e), emit (SelectTagByName n) w).
Proof.
  intros H. unfold findOrCreateTag, bind, selectTagByName.
  rewrite limit_1_filter. unfold tagNamed in H. rewrite H. reflexivity.
Qed.

Lemma findOrCreateTag_fresh (n d : string) (w : World) :
  tagNamed n w = None ->
  findOrCreateTag n d w =
  (Resolved (S (tagSeq w)),
   {| tags := tags w ++ [{| tag_id := S (tagSeq w); tag_name := n;
                            tag_description := d; tag_isAiGenerated := true |}];
      ticketsTags := ticketsTags w; tagSeq := S (tagSeq w);
      linkSeq := linkSeq w; now := now w;
      log := log w ++ [SelectTagByName n] ++ [InsertTag n d] |}).
Proof.
  intros H. unfold findOrCreateTag, bind, selectTagByName.
  rewrite limit_1_filter. unfold tagNamed in H. rewrite H.
  unfold insertTag, ret, emit; simpl. now rewrite <- app_assoc.
Qed.

Lemma findOrCreateTag_id (n d : string) (w : World) :
  fst (findOrCreateTag n d w) = Resolved (resolvedTagId n w).
Proof.
  unfold resolvedTagId. destruct (tagNamed n w) as [e|] eqn:E.
  - now rewrite (findOrCreateTag_found n d w e E).
  - now rewrite (findOrCreateTag_fresh n d w E).
Qed.

Lemma isTicketTagLinked_spec (ticketId : string) (tagId : nat) (w : World) :
  isTicketTagLinked ticketId tagId w =
  (Resolved (match linksOf ticketId tagId w with [] => false | _ => true end),
   emit (SelectLink ticketId tagId) w).
Proof.
  unfold isTicketTagLinked, linksOf, SQL.limit.
  destruct (filter _ (ticketsTags w)); reflexivity.
Qed.

(** ** The orchestrator *)

Section Orchestrator.

Variable JSONContentZod : Type.
Variable extractTextWithoutImages : JSONContentZod -> string.
Variable extractImageUrls : JSONContentZod -> list string.

Abbreviation analyzeAndSave :=
  (analyzeAndSaveHotIssue JSONContentZod extractTextWithoutImages extractImageUrls).
Abbreviation request :=
  (requestFor JSONContentZod extractTextWithoutImages extractImageUrls).

(** A configured run whose completion call answers [raw] succeeds and
    leaves [savedWorld]. *)
Lemma analyzeAndSaveHotIssue_run cfg (service : Completion) ticketId title description w raw :
  configured cfg ->
  service (request cfg title description w) = Resolved raw ->
  analyzeAndSave cfg service ticketId title description w =
  (Resolved tt,
   savedWorld (request cfg title description w) ticketId (normalizeResult raw) w).
Proof.
  intros [Hk Hm] Hs.
  unfold analyzeAndSaveHotIssue. rewrite Hk, Hm.
  unfold bind at 1. cbn [getExistingTags].
  unfold bind at 1. unfold analyzeWithAI.
  unfold bind at 1. unfold invoke.
  change (service _) with (service (request cfg title description w)).
  rewrite Hs. cbn [ret].
  unfold savedWorld, resolvedTagId.
  set (a := normalizeResult raw). set (rq := request cfg title description w).
  change (Invoke _) with (Invoke rq).
  clearbody a rq. clear Hs.
  set (w1 := emit (Invoke rq) (emit SelectTopTags w)).
  assert (Ht : tagNamed (AIAnalysisResult.name a) w1
               = tagNamed (AIAnalysisResult.name a) w) by reflexivity.
  assert (Hl : forall g, linksOf ticketId g w1 = linksOf ticketId g w)
    by reflexivity.
  assert (Hlog : log w1 = log w ++ [SelectTopTags; Invoke rq]).
  { unfold w1, emit; cbn [log]. now rewrite <- app_assoc. }
  assert (Hw : (tags w1, ticketsTags w1, tagSeq w1, linkSeq w1, now w1)
               = (tags w, ticketsTags w, tagSeq w, linkSeq w, now w))
    by reflexivity.
  clearbody w1. injection Hw as Htags Hlinks Hts Hls Hnow.
  unfold bind at 1.
  destruct (tagNamed (AIAnalysisResult.name a) w) as [e|] eqn:E.
  - rewrite (findOrCreateTag_found (AIAnalysisResult.name a)
               (AIAnalysisResult.description a) w1 e) by exact Ht.
    unfold bind. rewrite isTicketTagLinked_spec.
    assert (Hl' : linksOf ticketId (tag_id e) (emit (SelectTagByName (AIAnalysisResult.name a)) w1)
                  = linksOf ticketId (tag_id e) w) by (rewrite <- Hl; reflexivity).
    rewrite Hl'.
    destruct (linksOf ticketId (tag_id e) w) eqn:L; cbn [negb].
    + unfold linkTicketToTag, emit; cbn [tags ticketsTags tagSeq linkSeq now log].
      rewrite Htags, Hlinks, Hts, Hls, Hnow, Hlog.
      repeat rewrite <- app_assoc. reflexivity.
    + unfold ret, emit; cbn [tags ticketsTags tagSeq linkSeq now log].
      rewrite Htags, Hlinks, Hts, Hls, Hnow, Hlog.
      repeat rewrite <- app_assoc. reflexivity.
  - rewrite (findOrCreateTag_fresh (AIAnalysisResult.name a)
               (AIAnalysisResult.description a) w1) by exact Ht.
    unfold bind. rewrite isTicketTagLinked_spec.
    unfold linksOf at 1; cbn [ticketsTags emit]. rewrite Hlinks, Hts.
    fold (linksOf ticketId (S (tagSeq w)) w).
    destruct (linksOf ticketId (S (tagSeq w)) w) eqn:L; cbn [negb].
    + unfold linkTicketToTag, emit; cbn [tags ticketsTags tagSeq linkSeq now log].
      rewrite Htags, Hls, Hnow, Hlog.
      repeat rewrite <- app_assoc. reflexivity.
    + unfold ret, emit; cbn [tags ticketsTags tagSeq linkSeq now log].
      rewrite Htags, Hls, Hnow, Hlog.
      repeat rewrite <- app_assoc. reflexivity.
Qed.

Lemma skipn_length_app {A} (l x : list A) : skipn (List.length l) (l ++ x) = x.
Proof. induction l; simpl; auto. Qed.

Lemma trace_emitted {A} (m : Async A) (w : World) (evs : list Event) :
  log (snd (m w)) = log w ++ evs -> trace m w = evs.
Proof. intros H. unfold trace. rewrite H. apply skipn_length_app. Qed.

Lemma trace_unchanged {A} (m : Async A) (w : World) :
  snd (m w) = w -> trace m w = [].
Proof. intros H. apply trace_emitted. rewrite H. now rewrite app_nil_r. Qed.

(** Without a credential or without a model identifier nothing runs. *)
Lemma analyzeAndSaveHotIssue_unconfigured cfg (service : Completion) ticketId title description w :
  ~ configured cfg ->
  exists message,
    analyzeAndSave cfg service ticketId title description w
    = (Rejected (Error message), w).
Proof.
  intros H. unfold analyzeAndSaveHotIssue, configured in *.
  destruct (not_string (apiKey cfg)); [eexists; reflexivity|].
  destruct (not_string (analysisModel cfg)); [eexists; reflexivity|].
  exfalso; auto.
Qed.

(** A failing completion call stops the run after two external calls. *)
Lemma analyzeAndSaveHotIssue_rejected cfg (service : Completion) ticketId title description w e :
  configured cfg ->
  service (request cfg title description w) = Rejected e ->
  analyzeAndSave cfg service ticketId title description w
  = (Rejected e,
     emit (Invoke (request cfg title description w)) (emit SelectTopTags w)).
Proof.
  intros [Hk Hm] Hs.
  unfold analyzeAndSaveHotIssue. rewrite Hk, Hm.
  unfold bind at 1. cbn [getExistingTags].
  unfold bind at 1. unfold analyzeWithAI.
  unfold bind at 1. unfold invoke.
  change (service _) with (service (request cfg title description w)).
  rewrite Hs. reflexivity.
Qed.

Lemma configured_dec cfg : {configured cfg} + {~ configured cfg}.
Proof.
  unfold configured.
  destruct (not_string (apiKey cfg)), (not_string (analysisModel cfg));
    (left; split; reflexivity) || (right; intros [? ?]; discriminate).
Qed.

(** The external calls of a run, case by case. *)
Lemma analyzeAndSaveHotIssue_trace cfg (service : Completion) ticketId title description w :
  let rq := request cfg title description w in
  trace (analyzeAndSave cfg service ticketId title description) w =
  if configured_dec cfg then
    match service rq with
    | Resolved raw =>
        let a := normalizeResult raw in
        let n := AIAnalysisResult.name a in
        let g := resolvedTagId n w in
        [SelectTopTags; Invoke rq; SelectTagByName n]
          ++ (match tagNamed n w with
              | Some _ => []
              | None => [InsertTag n (AIAnalysisResult.description a)]
              end)
          ++ [SelectLink ticketId g]
          ++ (match linksOf ticketId g w with
              | [] => [InsertLink ticketId g (AIAnalysisResult.confidence a)]
              | _ => []
              end)
    | Rejected _ => [SelectTopTags; Invoke rq]
    end
  else [].
Proof.
  intros rq. destruct (configured_dec cfg) as [Hc|Hc].
  - destruct (service rq) as [raw|e] eqn:Hs.
    + apply trace_emitted.
      rewrite (analyzeAndSaveHotIssue_run _ _ _ _ _ _ _ Hc Hs).
      unfold savedWorld; cbn [snd log].
      destruct (tagNamed _ w), (linksOf _ _ w); reflexivity.
    + apply trace_emitted.
      rewrite (analyzeAndSaveHotIssue_rejected _ _ _ _ _ _ _ Hc Hs).
      unfold emit; cbn [snd log]. now rewrite <- app_assoc.
  - apply trace_unchanged.
    destruct (analyzeAndSaveHotIssue_unconfigured cfg service ticketId title
                description w Hc) as [m Hm].
    now rewrite Hm.
Qed.

(** Any confidence handed to the link insertion is the clamped answer. *)
Lemma inserted_confidence cfg (service : Completion) ticketId title description w t g c :
  In (InsertLink t g c)
     (trace (analyzeAndSave cfg service ticketId title description) w) ->
  exists raw,
    service (request cfg title description w) = Resolved raw /\
    c = clampConfidence (raw_confidence raw).
Proof.
  rewrite analyzeAndSaveHotIssue_trace.
  destruct (configured_dec cfg) as [Hc|Hc]; [|intros []].
  destruct (service _) as [raw|e] eqn:Hs.
  - cbv zeta. intros H. exists raw. split; [reflexivity|].
    destruct (tagNamed _ w), (linksOf _ _ w); simpl in H;
      repeat (destruct H as [H|H]; try discriminate; try contradiction);
      now inversion H.
  - simpl. intros [H|[H|[]]]; discriminate.
Qed.


Lemma analyzeWithAI_spec cfg (service : Completion) title description existingTags w :
  analyzeWithAI JSONContentZod extractTextWithoutImages extractImageUrls
                cfg service title description existingTags w =
  let rq := requestWith JSONContentZod extractTextWithoutImages extractImageUrls
                        cfg title description existingTags in
  (match service rq with
   | Resolved raw => Resolved (normalizeResult raw)
   | Rejected e => Rejected e
   end, emit (Invoke rq) w).
Proof.
  unfold analyzeWithAI, bind, invoke.
  change (service _) with
    (service (requestWith JSONContentZod extractTextWithoutImages
                          extractImageUrls cfg title description existingTags)).
  cbv zeta. destruct (service _); reflexivity.
Qed.

(** A run that resolves was configured and got an answer. *)
Lemma analyzeAndSaveHotIssue_resolved cfg (service : Completion) ticketId title description w w' :
  analyzeAndSave cfg service ticketId title description w = (Resolved tt, w') ->
  exists raw,
    configured cfg /\
    service (request cfg title description w) = Resolved raw /\
    w' = savedWorld (request cfg title description w) ticketId
                    (normalizeResult raw) w.
Proof.
  intros H. destruct (configured_dec cfg) as [Hc|Hc].
  - destruct (service (request cfg title description w)) as [raw|e] eqn:Hs.
    + exists raw. rewrite (analyzeAndSaveHotIssue_run _ _ _ _ _ _ _ Hc Hs) in H.
      inversion H. auto.
    + rewrite (analyzeAndSaveHotIssue_rejected _ _ _ _ _ _ _ Hc Hs) in H.
      discriminate.
  - destruct (analyzeAndSaveHotIssue_unconfigured cfg service ticketId title
                description w Hc) as [m Hm].
    rewrite Hm in H. discriminate.
Qed.

End Orchestrator.

(** ** The world a run leaves *)

Section Saved.

Variables (rq : Request) (ticketId : string) (a : AIAnalysisResult.t) (w : World).

Let n := AIAnalysisResult.name a.
Let g := resolvedTagId n w.
Let w' := savedWorld rq ticketId a w.

Lemma linksOf_same_pair : linksOf ticketId g w' <> [].
Proof.
  unfold w', savedWorld, linksOf; cbn [ticketsTags]. fold n. fold g.
  fold (linksOf ticketId g w).
  destruct (linksOf ticketId g w) eqn:L.
  - unfold linksOf in L. rewrite filter_app, L. cbn [filter tt_ticketId tt_tagId app].
    rewrite String.eqb_refl, Nat.eqb_refl. discriminate.
  - unfold linksOf in L. rewrite L. discriminate.
Qed.

Lemma linksOf_saved_length (t : string) (i : nat) :
  List.length (linksOf t i w) <= 1 -> List.length (linksOf t i w') <= 1.
Proof.
  unfold w', savedWorld, linksOf; cbn [ticketsTags]. fold n. fold g.
  fold (linksOf ticketId g w).
  destruct (linksOf ticketId g w) eqn:L; [|auto].
  rewrite filter_app, length_app. cbn [filter tt_ticketId tt_tagId].
  destruct (String.eqb_spec ticketId t) as [->|]; cbn [andb]; [|simpl; lia].
  destruct (Nat.eqb_spec g i) as [<-|]; [|simpl; lia].
  fold (linksOf t g w). rewrite L. simpl; lia.
Qed.

Lemma saved_same_pair_once :
  List.length (linksOf ticketId g w) <= 1 ->
  List.length (linksOf ticketId g w') = 1.
Proof.
  intros H. apply linksOf_saved_length in H.
  pose proof linksOf_same_pair as Hne.
  destruct (linksOf ticketId g w'); simpl in *; [congruence | lia].
Qed.

(** The run leaves the stored links alone exactly when the pair is linked. *)
Lemma saved_links_kept :
  linksOf ticketId g w <> [] -> ticketsTags w' = ticketsTags w.
Proof.
  intros H. unfold w', savedWorld; cbn [ticketsTags]. fold n. fold g.
  destruct (linksOf ticketId g w); [contradiction | reflexivity].
Qed.

Lemma tagNamed_saved :
  exists e, tagNamed n w' = Some e /\ tag_id e = g /\
            tag_description e = match tagNamed n w with
                                | Some e0 => tag_description e0
                                | None => AIAnalysisResult.description a
                                end.
Proof.
  unfold w', savedWorld, g, resolvedTagId, tagNamed; cbn [tags]. fold n.
  destruct (find _ (tags w)) as [e|] eqn:E.
  - exists e. rewrite E. auto.
  - exists {| tag_id := S (tagSeq w); tag_name := n;
              tag_description := AIAnalysisResult.description a;
              tag_isAiGenerated := true |}.
    split; [|split; reflexivity].
    rewrite find_none_app by exact E.
    cbn [find tag_name]. now rewrite String.eqb_refl.
Qed.

Lemma tagsKeyed_saved : tagsKeyed w -> tagsKeyed w'.
Proof.
  intros [Hnd Hle]. unfold w', savedWorld, tagsKeyed; cbn [tags tagSeq]. fold n.
  unfold resolvedTagId. destruct (tagNamed n w); [split; assumption|].
  split.
  - rewrite map_app; cbn [map tag_id].
    apply NoDup_app; [exact Hnd | repeat constructor; simpl; tauto |].
    intros i Hi [<-|[]]. apply in_map_iff in Hi as [t [Ht Hin]].
    rewrite Forall_forall in Hle. specialize (Hle t Hin). lia.
  - apply Forall_app; split.
    + eapply Forall_impl; [|exact Hle]. simpl; intros; lia.
    + repeat constructor.
Qed.

Lemma linksUnique_saved : linksUnique w -> linksUnique w'.
Proof. intros H t i. apply linksOf_saved_length, H. Qed.

End Saved.

(** ** Properties of the orchestrator and of the analysis client *)

Section Runs.

Variable JSONContentZod : Type.
Variable extractTextWithoutImages : JSONContentZod -> string.
Variable extractImageUrls : JSONContentZod -> list string.

Abbreviation analyzeAndSave :=
  (analyzeAndSaveHotIssue JSONContentZod extractTextWithoutImages extractImageUrls).
Abbreviation analyze :=
  (analyzeWithAI JSONContentZod extractTextWithoutImages extractImageUrls).
Abbreviation request :=
  (requestFor JSONContentZod extractTextWithoutImages extractImageUrls).
Abbreviation requestOf :=
  (requestWith JSONContentZod extractTextWithoutImages extractImageUrls).

(** The tag a resolved run settles on, read off its link lookup. *)
Lemma run_select_link cfg (service : Completion) ticketId title description w w' t i :
  analyzeAndSave cfg service ticketId title description w = (Resolved tt, w') ->
  In (SelectLink t i) (trace (analyzeAndSave cfg service ticketId title description) w) ->
  exists raw,
    service (request cfg title description w) = Resolved raw /\
    w' = savedWorld (request cfg title description w) ticketId
                    (normalizeResult raw) w /\
    i = resolvedTagId (AIAnalysisResult.name (normalizeResult raw)) w.
Proof.
  intros Hrun Hin.
  destruct (analyzeAndSaveHotIssue_resolved _ _ _ _ _ _ _ _ _ _ Hrun)
    as [raw [Hc [Hs Hw]]].
  exists raw. split; [exact Hs|]. split; [exact Hw|].
  rewrite analyzeAndSaveHotIssue_trace in Hin.
  destruct (configured_dec cfg); [|contradiction].
  rewrite Hs in Hin. cbv zeta in Hin.
  destruct (tagNamed _ w), (linksOf _ _ w); simpl in Hin;
    repeat (destruct Hin as [Hin|Hin]; try discriminate; try contradiction);
    now inversion Hin.
Qed.

(** The pipeline keeps both storage invariants. *)
Lemma run_keeps_invariants cfg (service : Completion) ticketId title description w :
  tagsKeyed w -> linksUnique w ->
  let w' := snd (analyzeAndSave cfg service ticketId title description w) in
  tagsKeyed w' /\ linksUnique w'.
Proof.
  intros Hk Hu. cbv zeta.
  destruct (configured_dec cfg) as [Hc|Hc].
  - destruct (service (request cfg title description w)) as [raw|e] eqn:Hs.
    + rewrite (analyzeAndSaveHotIssue_run _ _ _ _ _ _ _ _ _ _ Hc Hs).
      cbn [snd]. split; [now apply tagsKeyed_saved | now apply linksUnique_saved].
    + rewrite (analyzeAndSaveHotIssue_rejected _ _ _ _ _ _ _ _ _ _ Hc Hs).
      cbn [snd]. split; assumption.
  - destruct (analyzeAndSaveHotIssue_unconfigured JSONContentZod
                extractTextWithoutImages extractImageUrls cfg service ticketId
                title description w Hc) as [m Hm].
    rewrite Hm. split; assumption.
Qed.

(** Every store the module can produce has distinct tag ids and at most
    one link for each ticket and tag. *)
Lemma reachable_invariants (w : World) :
  Reachable JSONContentZod extractTextWithoutImages extractImageUrls w ->
  tagsKeyed w /\ linksUnique w.
Proof.
  induction 1 as [t | w cfg service ticketId title description _ [Hk Hu]
                  | w timeRange _ IH | w t _ IH].
  - split; [split; constructor | intros ticketId tagId; simpl; lia].
  - now apply run_keeps_invariants.
  - exact IH.
  - exact IH.
Qed.

(** C2.  Two runs for the same ticket that settle on the same tag leave
    exactly one link for the pair: the second run finds the link, inserts
    nothing, and the stored link, with its confidence, is the one the first
    run left. *)
Theorem second_run_keeps_single_link
        cfg1 (service1 : Completion) title1 description1 cfg2 (service2 : Completion) title2 description2
        ticketId tagId w w1 w2 :
  List.length (linksOf ticketId tagId w) <= 1 ->
  analyzeAndSave cfg1 service1 ticketId title1 description1 w = (Resolved tt, w1) ->
  analyzeAndSave cfg2 service2 ticketId title2 description2 w1 = (Resolved tt, w2) ->
  In (SelectLink ticketId tagId)
     (trace (analyzeAndSave cfg1 service1 ticketId title1 description1) w) ->
  In (SelectLink ticketId tagId)
     (trace (analyzeAndSave cfg2 service2 ticketId title2 description2) w1) ->
  List.length (linksOf ticketId tagId w2) = 1 /\
  ticketsTags w2 = ticketsTags w1 /\
  linksOf ticketId tagId w2 = linksOf ticketId tagId w1 /\
  forall e,
    In e (trace (analyzeAndSave cfg2 service2 ticketId title2 description2) w1) ->
    isInsertLink e = false.
Proof.
  intros Hle Hr1 Hr2 Hs1 Hs2.
  destruct (run_select_link _ _ _ _ _ _ _ _ _ Hr1 Hs1) as [raw1 [Ha1 [Hw1 Hg1]]].
  destruct (run_select_link _ _ _ _ _ _ _ _ _ Hr2 Hs2) as [raw2 [Ha2 [Hw2 Hg2]]].
  assert (Hone : List.length (linksOf ticketId tagId w1) = 1).
  { rewrite Hw1. rewrite Hg1 in *. now apply saved_same_pair_once. }
  assert (Hne : linksOf ticketId tagId w1 <> []).
  { intros E. rewrite E in Hone. discriminate. }
  assert (Hkeep : ticketsTags w2 = ticketsTags w1).
  { rewrite Hw2. apply saved_links_kept. now rewrite <- Hg2. }
  assert (Hsame : linksOf ticketId tagId w2 = linksOf ticketId tagId w1).
  { unfold linksOf. now rewrite Hkeep. }
  repeat split; try assumption.
  - now rewrite Hsame.
  - intros e. rewrite analyzeAndSaveHotIssue_trace.
    destruct (configured_dec cfg2); [|contradiction].
    rewrite Ha2. cbv zeta. rewrite <- Hg2.
    destruct (linksOf ticketId tagId w1); [contradiction|].
    destruct (tagNamed _ w1); simpl; intros H;
      repeat (destruct H as [H|H]; [subst e; reflexivity|]); contradiction.
Qed.

(** Runs whose analyses carry the same name settle on the same tag. *)
Lemma same_name_same_tag rq ticketId a w :
  resolvedTagId (AIAnalysisResult.name a) (savedWorld rq ticketId a w)
  = resolvedTagId (AIAnalysisResult.name a) w.
Proof.
  destruct (tagNamed_saved rq ticketId a w) as [e [He [Hid _]]].
  unfold resolvedTagId at 1. now rewrite He.
Qed.

(** C4.  When the credential or the model identifier is absent the run is
    rejected with a configuration error and the world, log included, is the
    one it started in: no storage access and no completion call.  The test
    sits in the orchestrator alone; the client calls the service whatever
    the configuration. *)
Theorem missing_configuration_rejected_first
        cfg (service : Completion) ticketId title description w :
  not_string (apiKey cfg) = true \/ not_string (analysisModel cfg) = true ->
  (exists message,
      analyzeAndSave cfg service ticketId title description w
      = (Rejected (Error message), w) /\
      (message = "OPENAI_API_KEY 未配置" \/ message = "ANALYSIS_MODEL 未配置")) /\
  trace (analyzeAndSave cfg service ticketId title description) w = [] /\
  forall existingTags,
    trace (analyze cfg service title description existingTags) w
    = [Invoke (requestOf cfg title description existingTags)].
Proof.
  intros H. split; [|split].
  - unfold analyzeAndSaveHotIssue.
    destruct (not_string (apiKey cfg)) eqn:Hk.
    + eexists; split; [reflexivity | now left].
    + destruct H as [H|H]; [discriminate|]. rewrite H.
      eexists; split; [reflexivity | now right].
  - apply trace_unchanged. unfold analyzeAndSaveHotIssue.
    destruct (not_string (apiKey cfg)) eqn:Hk; [reflexivity|].
    destruct H as [H|H]; [discriminate|]. now rewrite H.
  - intros existingTags. apply trace_emitted.
    rewrite analyzeWithAI_spec. reflexivity.
Qed.

(** An over-long description is outside the schema asked of the service. *)
Lemma long_description_outside_schema (raw : RawAnalysis) (d : string) :
  raw_description raw = Some d ->
  CONFIG.MAX_DESCRIPTION_LENGTH < utf16_length d ->
  hotIssueAnalysisSchema raw = false.
Proof.
  intros Hd Hlen. unfold hotIssueAnalysisSchema. rewrite Hd.
  destruct (raw_name raw); [|reflexivity].
  destruct (raw_confidence raw); [|reflexivity].
  destruct (Nat.leb_spec (utf16_length d) CONFIG.MAX_DESCRIPTION_LENGTH);
    [lia | reflexivity].
Qed.

(** What the schema says of an answer it admits. *)
Lemma schema_fields (raw : RawAnalysis) :
  hotIssueAnalysisSchema raw = true ->
  exists n d c,
    raw_name raw = Some n /\ raw_description raw = Some d /\
    raw_confidence raw = Some c /\
    utf16_length d <= CONFIG.MAX_DESCRIPTION_LENGTH /\
    is_nan c = false /\ lt c (Fin 0%Q) = false /\ lt (Fin 1%Q) c = false.
Proof.
  unfold hotIssueAnalysisSchema. intros H.
  destruct (raw_name raw) as [n|]; [|discriminate].
  destruct (raw_description raw) as [d|]; [|discriminate].
  destruct (raw_confidence raw) as [c|]; [|discriminate].
  apply andb_true_iff in H as [H H1]. apply andb_true_iff in H as [H H0].
  apply andb_true_iff in H as [Hd Hnan].
  apply negb_true_iff in H1, H0, Hnan. apply Nat.leb_le in Hd.
  exists n, d, c. repeat split; assumption.
Qed.

(** Within the schema the clamped confidence is above 0: a zero became the
    default, and nothing below 0 was admitted. *)
Lemma schema_confidence_positive (raw : RawAnalysis) :
  hotIssueAnalysisSchema raw = true ->
  exists q, clampConfidence (raw_confidence raw) = Fin q /\
            (0 < q)%Q /\ (q <= 1)%Q.
Proof.
  intros H. destruct (schema_fields raw H)
    as [n [d [c [_ [_ [Hc [_ [Hnan [H0 H1]]]]]]]]].
  rewrite Hc. destruct (truthy_number c) eqn:Ht.
  - destruct c as [ | | | q]; try discriminate.
    exists q. assert (Hpos : (0 < q)%Q).
    { apply lt_Fin_false in H0. apply Qle_lteq in H0 as [H0|H0]; [exact H0|].
      exfalso. symmetry in H0. apply truthy_Fin in H0. congruence. }
    split; [|split; [exact Hpos | now apply lt_Fin_false]].
    apply clampConfidence_inside; [now apply lt_Fin | exact H1].
  - exists (1 # 2)%Q. split; [now apply clampConfidence_falsy|].
    split; reflexivity || discriminate.
Qed.

Lemma structured_outside_schema (model : ChatModel) (rq : Request)
      (raw : RawAnalysis) :
  model rq = Resolved raw -> hotIssueAnalysisSchema raw = false ->
  withStructuredOutput model rq = Rejected ZodError.
Proof.
  intros Hm Hs. cbn [withStructuredOutput answer]. unfold parse.
  now rewrite Hm, Hs.
Qed.

(** C5 (as amended).  A description longer than the configured maximum
    does not get past the structured call: the schema it was built with
    carries the ceiling, the call is rejected, the run fails with that
    error and writes no tag and no link.  What the call lets through, a
    description of at most the maximum, the code does not cut: the run
    resolves, and the tag it creates carries a non-empty description as it
    came; when a tag of the returned name is stored it is reused and the
    tags are left as they were. *)
Theorem long_description_rejected
        cfg (model : ChatModel) ticketId title description w raw d :
  configured cfg ->
  model (request cfg title description w) = Resolved raw ->
  raw_description raw = Some d ->
  CONFIG.MAX_DESCRIPTION_LENGTH < utf16_length d ->
  let run := analyzeAndSave cfg (withStructuredOutput model)
                            ticketId title description w in
  fst run = Rejected ZodError /\
  tags (snd run) = tags w /\ ticketsTags (snd run) = ticketsTags w /\
  forall (service : Completion) raw' d',
    service (request cfg title description w) = Resolved raw' ->
    raw_description raw' = Some d' -> d' <> EmptyString ->
    let run' := analyzeAndSave cfg service ticketId title description w in
    let n := AIAnalysisResult.name (normalizeResult raw') in
    utf16_length d' <= CONFIG.MAX_DESCRIPTION_LENGTH /\
    fst run' = Resolved tt /\
    match tagNamed n w with
    | None =>
        tags (snd run') = tags w ++ [{| tag_id := S (tagSeq w); tag_name := n;
                                        tag_description := d';
                                        tag_isAiGenerated := true |}]
    | Some _ => tags (snd run') = tags w
    end.
Proof.
  intros Hc Hm Hd Hlen. cbv zeta.
  assert (Hrej : withStructuredOutput model (request cfg title description w)
                 = Rejected ZodError).
  { apply (structured_outside_schema model _ raw Hm).
    now apply (long_description_outside_schema raw d). }
  rewrite (analyzeAndSaveHotIssue_rejected _ _ _ _ _ _ _ _ _ _ Hc Hrej).
  cbn [fst snd]. split; [reflexivity|]. split; [reflexivity|].
  split; [reflexivity|].
  intros service raw' d' Hs Hd' Hne.
  destruct (schema_fields raw' (answer_in_schema service _ _ Hs))
    as [n0 [d0 [c0 [_ [Hd0 [_ [Hbound _]]]]]]].
  rewrite Hd' in Hd0. inversion Hd0; subst d0.
  rewrite (analyzeAndSaveHotIssue_run _ _ _ _ _ _ _ _ _ _ Hc Hs).
  assert (Hdesc : AIAnalysisResult.description (normalizeResult raw') = d').
  { cbn [normalizeResult AIAnalysisResult.description]. rewrite Hd'.
    now apply or_string_present. }
  split; [exact Hbound|]. split; [reflexivity|].
  unfold savedWorld, resolvedTagId; cbn [snd tags].
  destruct (tagNamed _ w); [reflexivity|]. now rewrite Hdesc.
Qed.

(** C9 (as amended).  When the structured call answers, name and
    description are present: the client returns an empty name replaced by
    the fixed label [其他问题], an empty description by the fixed phrase
    [未明确分类的问题], any other name and description as they came, and
    the reasoning as it came, [null] and [undefined] included.  An answer of
    the provider without name or without description gets no fallback: the
    structured call rejects it. *)
Theorem analysis_fallbacks
        cfg (service : Completion) (model : ChatModel)
        title description existingTags w raw :
  (service (requestOf cfg title description existingTags) = Resolved raw ->
   exists n d a,
     raw_name raw = Some n /\ raw_description raw = Some d /\
     fst (analyze cfg service title description existingTags w) = Resolved a /\
     (n = EmptyString -> AIAnalysisResult.name a = "其他问题") /\
     (n <> EmptyString -> AIAnalysisResult.name a = n) /\
     (d = EmptyString -> AIAnalysisResult.description a = "未明确分类的问题") /\
     (d <> EmptyString -> AIAnalysisResult.description a = d) /\
     AIAnalysisResult.reasoning a = raw_reasoning raw) /\
  (model (requestOf cfg title description existingTags) = Resolved raw ->
   raw_name raw = None \/ raw_description raw = None ->
   fst (analyze cfg (withStructuredOutput model) title description
                existingTags w) = Rejected ZodError).
Proof.
  split.
  - intros Hs.
    destruct (schema_fields raw (answer_in_schema service _ _ Hs))
      as [n [d [c [Hn [Hd _]]]]].
    exists n, d, (normalizeResult raw).
    split; [exact Hn|]. split; [exact Hd|]. split.
    + rewrite analyzeWithAI_spec. cbv zeta. now rewrite Hs.
    + cbn [normalizeResult AIAnalysisResult.name AIAnalysisResult.description
           AIAnalysisResult.reasoning]. rewrite Hn, Hd.
      repeat split.
      * intros ->. reflexivity.
      * apply or_string_present.
      * intros ->. reflexivity.
      * apply or_string_present.
  - intros Hm Hmiss. rewrite analyzeWithAI_spec. cbv zeta.
    rewrite (structured_outside_schema model _ raw Hm); [reflexivity|].
    unfold hotIssueAnalysisSchema.
    destruct Hmiss as [-> | ->]; [reflexivity|].
    destruct (raw_name raw); reflexivity.
Qed.

(** C10.  A returned confidence of exactly 0 is replaced by the default 0.5
    before clamping, and an empty name or description, though present, gets
    the fallback text.  So no run hands a confidence of 0 to the link
    insertion: what it hands on is above 0 and at most 1. *)
Theorem zero_confidence_never_persisted
        cfg (service : Completion) ticketId title description w :
  (forall raw,
      service (request cfg title description w) = Resolved raw ->
      exists a,
        (forall w0, fst (analyze cfg service title description
                                 (existingTagsOf w) w0) = Resolved a) /\
        ((exists q, raw_confidence raw = Some (Fin q) /\ (q == 0)%Q) ->
         AIAnalysisResult.confidence a = Fin (1 # 2)%Q) /\
        (raw_name raw = Some EmptyString ->
         AIAnalysisResult.name a = "其他问题") /\
        (raw_description raw = Some EmptyString ->
         AIAnalysisResult.description a = "未明确分类的问题")) /\
  (forall t g c,
      In (InsertLink t g c)
         (trace (analyzeAndSave cfg service ticketId title description) w) ->
      exists q, c = Fin q /\ (0 < q)%Q /\ (q <= 1)%Q).
Proof.
  split.
  - intros raw Hs. exists (normalizeResult raw). split; [|split; [|split]].
    + intros w0. rewrite analyzeWithAI_spec. cbv zeta.
      change (requestOf cfg title description (existingTagsOf w))
        with (request cfg title description w).
      now rewrite Hs.
    + intros [q [Hq Hz]]. cbn [normalizeResult AIAnalysisResult.confidence].
      rewrite Hq. now apply clampConfidence_zero.
    + intros H. cbn [normalizeResult AIAnalysisResult.name]. now rewrite H.
    + intros H. cbn [normalizeResult AIAnalysisResult.description]. now rewrite H.
  - intros t g c Hin.
    destruct (inserted_confidence _ _ _ _ _ _ _ _ _ _ _ _ Hin) as [raw [Hs Hc]].
    rewrite Hc. apply schema_confidence_positive.
    exact (answer_in_schema service _ _ Hs).
Qed.

End Runs.

(** ** The taxonomy resolver *)

(** C3.  [findOrCreateTag] on a stored name answers the stored tag's id and
    leaves the tags, descriptions included, as they were; on an absent name
    it appends a tag with the given name and description, marked as
    generated, and answers its new id.  Called twice with one name and two
    descriptions it answers the same id, and the description stored under
    that name is the one of the first write. *)
Theorem findOrCreateTag_first_write_wins (n d1 d2 : string) (w : World) :
  (forall e, tagNamed n w = Some e ->
             fst (findOrCreateTag n d1 w) = Resolved (tag_id e) /\
             tags (snd (findOrCreateTag n d1 w)) = tags w) /\
  (tagNamed n w = None ->
   fst (findOrCreateTag n d1 w) = Resolved (S (tagSeq w)) /\
   tags (snd (findOrCreateTag n d1 w))
   = tags w ++ [{| tag_id := S (tagSeq w); tag_name := n;
                   tag_description := d1; tag_isAiGenerated := true |}] /\
   (tagsKeyed w -> ~ In (S (tagSeq w)) (map tag_id (tags w)))) /\
  (let first := findOrCreateTag n d1 w in
   let second := findOrCreateTag n d2 (snd first) in
   fst second = fst first /\
   tags (snd second) = tags (snd first) /\
   exists e, tagNamed n (snd second) = Some e /\
             fst second = Resolved (tag_id e) /\
             tag_description e = match tagNamed n w with
                                 | Some e0 => tag_description e0
                                 | None => d1
                                 end).
Proof.
  split; [|split].
  - intros e He. now rewrite (findOrCreateTag_found n d1 w e He).
  - intros Hn. rewrite (findOrCreateTag_fresh n d1 w Hn). cbn [fst snd tags].
    repeat split. intros [_ Hle] Hin.
    apply in_map_iff in Hin as [t [Ht Hin]].
    rewrite Forall_forall in Hle. specialize (Hle t Hin). lia.
  - cbv zeta. destruct (tagNamed n w) as [e|] eqn:E.
    + rewrite (findOrCreateTag_found n d1 w e E). cbn [fst snd].
      assert (E' : tagNamed n (emit (SelectTagByName n) w) = Some e) by exact E.
      rewrite (findOrCreateTag_found n d2 _ e E'). cbn [fst snd].
      repeat split. exists e. auto.
    + rewrite (findOrCreateTag_fresh n d1 w E). cbn [fst snd].
      set (t := {| tag_id := S (tagSeq w); tag_name := n;
                   tag_description := d1; tag_isAiGenerated := true |}).
      set (w1 := {| tags := tags w ++ [t]; ticketsTags := ticketsTags w;
                    tagSeq := S (tagSeq w); linkSeq := linkSeq w;
                    now := now w;
                    log := log w ++ [SelectTagByName n] ++ [InsertTag n d1] |}).
      assert (E1 : tagNamed n w1 = Some t).
      { unfold tagNamed, w1; cbn [tags]. rewrite find_none_app by exact E.
        cbn [find tag_name t]. now rewrite String.eqb_refl. }
      rewrite (findOrCreateTag_found n d2 w1 t E1). cbn [fst snd].
      repeat split. exists t. auto.
Qed.

(** ** The user message *)

Lemma fold_left_push {A B} (f : A -> B) (l : list A) (init : list B) :
  fold_left (fun content url => content ++ [f url]) l init = init ++ map f l.
Proof.
  revert init. induction l as [|x l IH]; intros init; simpl.
  - now rewrite app_nil_r.
  - rewrite IH, <- app_assoc. reflexivity.
Qed.

Section UserContent.

Variable JSONContentZod : Type.
Variable extractTextWithoutImages : JSONContentZod -> string.
Variable extractImageUrls : JSONContentZod -> list string.

(** C6.  The user message is one text block followed by the first
    [min n 6] image references of the document, in document order, [n]
    being the number of image references. *)
Theorem buildUserContent_blocks (title : string) (description : JSONContentZod) :
  let content := buildUserContent JSONContentZod extractTextWithoutImages
                                  extractImageUrls title description in
  let imageUrls := extractImageUrls description in
  content = TextItem ("标题: " ++ title ++ newline ++ "描述: "
                      ++ extractTextWithoutImages description)
              :: map ImageUrlItem (firstn 6 imageUrls) /\
  List.length content = 1 + Nat.min (List.length imageUrls) 6 /\
  (forall i, i < Nat.min (List.length imageUrls) 6 ->
             nth_error content (S i)
             = option_map ImageUrlItem (nth_error imageUrls i)).
Proof.
  cbv zeta. unfold buildUserContent. rewrite fold_left_push. cbn [app].
  split; [reflexivity|]. split.
  - cbn [List.length]. rewrite length_map, length_firstn. lia.
  - intros i Hi. cbn [nth_error]. rewrite nth_error_map.
    rewrite nth_error_firstn.
    destruct (Nat.ltb_spec i 6) as [_|H6]; [reflexivity | lia].
Qed.

End UserContent.

Example no_image_one_block :
  buildUserContent Sample.Doc Sample.doc_text Sample.doc_images "gateway"
                   Sample.ticket
  = [TextItem ("标题: gateway" ++ newline ++ "描述: ingress 502")].
Proof. reflexivity. Qed.

Example nine_images_six_blocks :
  buildUserContent Sample.Doc Sample.doc_text Sample.doc_images "t"
                   Sample.nineImages
  = TextItem ("标题: t" ++ newline ++ "描述: see screenshots")
      :: map ImageUrlItem ["u1"; "u2"; "u3"; "u4"; "u5"; "u6"].
Proof. reflexivity. Qed.

(** ** The relational operators *)

Section Ordering.

Context {A : Type} (rank : A -> nat).

Abbreviation descending := (descending rank).

Lemma insertDesc_perm (x : A) (l : list A) :
  Permutation (x :: l) (SQL.insertDesc rank x l).
Proof.
  induction l as [|y l IH]; simpl; [reflexivity|].
  destruct (rank y <=? rank x); [reflexivity|].
  rewrite perm_swap. now constructor.
Qed.

Lemma orderByDesc_perm (l : list A) : Permutation l (SQL.orderByDesc rank l).
Proof.
  induction l as [|x l IH]; simpl; [constructor|].
  rewrite <- insertDesc_perm. now constructor.
Qed.

Lemma orderByDesc_length (l : list A) :
  List.length (SQL.orderByDesc rank l) = List.length l.
Proof. symmetry. apply Permutation_length, orderByDesc_perm. Qed.

Lemma insertDesc_descending (x : A) (l : list A) :
  descending l -> descending (SQL.insertDesc rank x l).
Proof.
  unfold descending. induction l as [|y l IH]; intros H; simpl.
  - repeat constructor.
  - inversion H as [|? ? Hl Hy]; subst.
    destruct (Nat.leb_spec (rank y) (rank x)) as [Hle|Hlt].
    + constructor; [exact H|]. constructor; [exact Hle|].
      eapply Forall_impl; [|exact Hy]. simpl; intros; lia.
    + constructor; [now apply IH|].
      eapply Permutation_Forall; [apply insertDesc_perm|].
      constructor; [lia | exact Hy].
Qed.

Lemma orderByDesc_descending (l : list A) : descending (SQL.orderByDesc rank l).
Proof.
  induction l as [|x l IH]; simpl; [constructor|].
  now apply insertDesc_descending.
Qed.

Lemma limit_descending (k : nat) (l : list A) :
  descending l -> descending (SQL.limit k l).
Proof.
  unfold descending, SQL.limit. revert k.
  induction l as [|x l IH]; intros [|k] H; simpl; try constructor.
  - inversion H; subst. now apply IH.
  - inversion H; subst. eapply incl_Forall; [|eassumption].
    intros y Hy. eapply In_nth_error in Hy as [i Hi].
    rewrite nth_error_firstn in Hi.
    destruct (i <? k); [|discriminate]. eapply nth_error_In; eassumption.
Qed.

(** What a capped ranking leaves out ranks no higher than what it keeps. *)
Lemma limit_keeps_top (k : nat) (l : list A) (x y : A) :
  descending l -> In x (SQL.limit k l) -> In y (skipn k l) -> rank y <= rank x.
Proof.
  unfold descending, SQL.limit. intros H Hx Hy.
  rewrite <- (firstn_skipn k l) in H.
  induction (firstn k l) as [|z f IH]; [contradiction|].
  simpl in H. inversion H as [|? ? Hs Hall]; subst.
  destruct Hx as [->|Hx]; [|now apply IH].
  rewrite Forall_forall in Hall. apply Hall, in_or_app. now right.
Qed.

End Ordering.

Section Grouping.

Context {T A K : Type}.
Variable eqb : K -> K -> bool.
Hypothesis eqb_eq : forall a b, eqb a b = true <-> a = b.
Variable key : A -> K.

Lemma eqb_same (a : K) : eqb a a = true.
Proof. now apply eqb_eq. Qed.

Lemma eqb_differ (a b : K) : a <> b -> eqb a b = false.
Proof.
  intros H. destruct (eqb a b) eqn:E; [|reflexivity].
  apply eqb_eq in E. contradiction.
Qed.

Lemma filter_all {X} (p : X -> bool) (l : list X) :
  (forall x, In x l -> p x = true) -> filter p l = l.
Proof.
  induction l as [|x l IH]; intros H; simpl; [reflexivity|].
  rewrite (H x) by now left. f_equal. apply IH. intros; apply H; now right.
Qed.

Lemma filter_none {X} (p : X -> bool) (l : list X) :
  (forall x, In x l -> p x = false) -> filter p l = [].
Proof.
  induction l as [|x l IH]; intros H; simpl; [reflexivity|].
  rewrite (H x) by now left. apply IH. intros; apply H; now right.
Qed.

Lemma distinct_In (k : K) (l : list K) : In k (SQL.distinct eqb l) -> In k l.
Proof.
  revert k. induction l as [|x l IH]; intros k; simpl; [auto|].
  intros [->|H]; [now left|]. right. apply filter_In in H. now apply IH.
Qed.

(** A run of rows that share one key, in front of rows of other keys. *)
Lemma distinct_run (k : K) (run rest : list K) :
  run <> [] -> (forall x, In x run -> x = k) -> ~ In k rest ->
  SQL.distinct eqb (run ++ rest) = k :: SQL.distinct eqb rest.
Proof.
  intros Hne Hrun Hk.
  assert (Hrest : filter (fun k' => negb (eqb k k')) (SQL.distinct eqb rest)
                  = SQL.distinct eqb rest).
  { apply filter_all. intros x Hx. apply distinct_In in Hx.
    rewrite eqb_differ; [reflexivity|]. intros ->. contradiction. }
  induction run as [|x run IH]; [contradiction|].
  assert (x = k) by (apply Hrun; now left). subst x.
  simpl. f_equal. destruct run as [|y run].
  - exact Hrest.
  - rewrite IH; [|discriminate|intros z Hz; apply Hrun; now right].
    simpl. rewrite eqb_same. simpl. exact Hrest.
Qed.

Variable k : T -> K.
Variable g : T -> list A.
Hypothesis g_key : forall t r, In r (g t) -> key r = k t.

Lemma flat_map_keys (l : list T) (r : A) :
  In r (flat_map g l) -> In (key r) (map k l).
Proof.
  intros H. apply in_flat_map in H as [t [Ht Hr]].
  rewrite (g_key t r Hr). now apply in_map.
Qed.

(** Grouping a join by the key of its left rows gives, for each left row
    that has partners, the rows it contributed. *)
Lemma groupBy_flat_map (l : list T) :
  NoDup (map k l) ->
  SQL.groupBy eqb key (flat_map g l)
  = map (fun t => (k t, g t))
        (filter (fun t => match g t with [] => false | _ => true end) l).
Proof.
  induction l as [|t l IH]; intros Hnd; [reflexivity|].
  simpl in Hnd. inversion Hnd as [|? ? Hnot Hnd']; subst.
  specialize (IH Hnd'). cbn [flat_map filter].
  assert (Hother : forall r, In r (flat_map g l) -> eqb (key r) (k t) = false).
  { intros r Hr. apply eqb_differ. intros E. apply Hnot. rewrite <- E.
    now apply flat_map_keys. }
  destruct (match g t with [] => false | _ => true end) eqn:Em.
  - rename Hnot into Hnot'.
    assert (Hne : g t <> []) by (intros E; rewrite E in Em; discriminate).
    unfold SQL.groupBy. rewrite map_app.
    rewrite (distinct_run (k t)).
    + cbn [map]. f_equal.
      * f_equal. rewrite filter_app.
        rewrite (filter_all _ (g t))
          by (intros r Hr; rewrite (g_key t r Hr); apply eqb_same).
        rewrite (filter_none _ (flat_map g l)) by exact Hother.
        apply app_nil_r.
      * unfold SQL.groupBy in IH. rewrite <- IH.
        apply map_ext_in. intros kk Hkk. f_equal.
        rewrite filter_app.
        rewrite (filter_none _ (g t)); [reflexivity|].
        intros r Hr. rewrite (g_key t r Hr). apply eqb_differ.
        intros <-. apply Hnot'. apply distinct_In in Hkk.
        apply in_map_iff in Hkk as [r' [Hr' Hin]].
        rewrite <- Hr'. now apply flat_map_keys.
    + intros E. apply map_eq_nil in E. contradiction.
    + intros x Hx. apply in_map_iff in Hx as [r [<- Hr]]. now apply g_key.
    + intros Hin. apply Hnot'. apply in_map_iff in Hin as [r [Hr Hin]].
      rewrite <- Hr. now apply flat_map_keys.
  - assert (E : g t = []) by (destruct (g t); [reflexivity | discriminate]).
    rewrite E. exact IH.
Qed.

End Grouping.

(** ** The two aggregate queries *)

Lemma tagKey_eqb_eq (a b : tagKey) : tagKey_eqb a b = true <-> a = b.
Proof.
  destruct a as [[i n] d], b as [[j m] e]. unfold tagKey_eqb.
  rewrite !andb_true_iff, Nat.eqb_eq, !String.eqb_eq.
  split; [intros [[-> ->] ->]; reflexivity | intros H; inversion H; auto].
Qed.

Lemma NoDup_keyOf (l : list TagRow) :
  NoDup (map tag_id l) -> NoDup (map keyOf l).
Proof.
  induction l as [|t l IH]; simpl; intros H; [constructor|].
  inversion H as [|? ? Hnot Hnd]; subst. constructor; [|now apply IH].
  intros Hin. apply Hnot. apply in_map_iff in Hin as [t' [Hk Hin]].
  apply in_map_iff. exists t'. split; [|exact Hin].
  unfold keyOf in Hk. now inversion Hk.
Qed.

Lemma filter_flat_map {X Y} (p : Y -> bool) (f : X -> list Y) (l : list X) :
  filter p (flat_map f l) = flat_map (fun x => filter p (f x)) l.
Proof.
  induction l as [|x l IH]; simpl; [reflexivity|].
  now rewrite filter_app, IH.
Qed.

Lemma filter_map_swap {X Y} (p : Y -> bool) (f : X -> Y) (l : list X) :
  filter p (map f l) = map f (filter (fun x => p (f x)) l).
Proof.
  induction l as [|x l IH]; simpl; [reflexivity|].
  destruct (p (f x)); simpl; now rewrite IH.
Qed.

Lemma filter_filter {X} (p q : X -> bool) (l : list X) :
  filter p (filter q l) = filter (fun x => q x && p x) l.
Proof.
  induction l as [|x l IH]; simpl; [reflexivity|].
  destruct (q x); simpl; [destruct (p x)|]; now rewrite IH.
Qed.

Lemma count_some {X Y} (f : X -> Y) (l : list X) :
  SQL.count (map (fun x => Some (f x)) l) = List.length l.
Proof.
  unfold SQL.count. induction l as [|x l IH]; simpl; [reflexivity|].
  now rewrite IH.
Qed.

(** The joined, filtered and grouped rows of the statistics query. *)
Lemma stats_groups (timeRange : TimeRange) (w : World) :
  NoDup (map tag_id (tags w)) ->
  SQL.groupBy tagKey_eqb (fun r : TagRow * TicketTagRow => keyOf (fst r))
    (filter (fun r => inRange timeRange (snd r))
            (SQL.innerJoin onTagId (tags w) (ticketsTags w)))
  = map (fun t => (keyOf t, map (pair t) (linksInRange timeRange w t)))
        (filter (hasLinksInRange timeRange w) (tags w)).
Proof.
  intros Hnd. unfold SQL.innerJoin. rewrite filter_flat_map.
  rewrite (flat_map_ext _ (fun t => map (pair t) (linksInRange timeRange w t))).
  - rewrite (groupBy_flat_map tagKey_eqb tagKey_eqb_eq _ keyOf).
    + f_equal. apply filter_ext. intros t. unfold hasLinksInRange.
      destruct (linksInRange timeRange w t); reflexivity.
    + intros t r Hr. apply in_map_iff in Hr as [l [<- _]]. reflexivity.
    + now apply NoDup_keyOf.
  - intros t. rewrite filter_map_swap, filter_filter. reflexivity.
Qed.

Lemma selectTagStats_ranked (timeRange : TimeRange) (w : World) :
  NoDup (map tag_id (tags w)) ->
  selectTagStats timeRange w
  = SQL.orderByDesc count
      (map (statOf timeRange w) (filter (hasLinksInRange timeRange w) (tags w))).
Proof.
  intros Hnd. unfold selectTagStats. rewrite (stats_groups timeRange w Hnd).
  rewrite map_map. f_equal. apply map_ext. intros t.
  unfold statOf; cbn [fst snd keyOf]. f_equal.
  - rewrite map_map; cbn [snd]. apply count_some.
  - now rewrite map_map.
Qed.


(** The example of three links to A (0.6, 0.8, 1.0) and one to B (0.5):
    A's average is 0.7999999999999999. *)
Example stats_of_four_links :
  selectTagStats Sample.range Sample.statsWorld
  = [ {| tag := "A"; tagDescription := "a"; count := 3;
         avgConfidence :=
           Some (Fin (7205759403792793 # 9007199254740992)%Q) |};
      {| tag := "B"; tagDescription := "b"; count := 1;
         avgConfidence := Some (Fin (1 # 2)%Q) |} ].
Proof. vm_compute. reflexivity. Qed.

Lemma limit_In {X} (k : nat) (l : list X) (x : X) :
  In x (firstn k l) -> In x l.
Proof.
  revert k. induction l as [|y l IH]; intros [|k]; simpl; try tauto.
  intros [->|H]; [now left | right; eauto].
Qed.

Lemma selectTopTags_ranked (w : World) :
  NoDup (map tag_id (tags w)) ->
  selectTopTags w
  = SQL.limit CONFIG.MAX_EXISTING_TAGS
      (SQL.orderByDesc tu_usageCount (map (usageRow w) (tags w))).
Proof.
  intros Hnd. unfold selectTopTags, SQL.leftJoin. do 2 f_equal.
  rewrite (groupBy_flat_map tagKey_eqb tagKey_eqb_eq _ keyOf).
  - rewrite filter_all.
    + rewrite map_map. apply map_ext. intros t.
      unfold usageRow, usageOf; cbn [fst snd keyOf]. f_equal.
      destruct (filter (onTagId t) (ticketsTags w)) as [|l ls]; [reflexivity|].
      rewrite map_map; cbn [snd option_map]. apply count_some.
    + intros t _. destruct (filter (onTagId t) (ticketsTags w)); reflexivity.
  - intros t r Hr.
    destruct (filter (onTagId t) (ticketsTags w)) as [|l ls].
    + destruct Hr as [<-|[]]. reflexivity.
    + apply in_map_iff in Hr as [b [<- _]]. reflexivity.
  - now apply NoDup_keyOf.
Qed.

Lemma descending_map {X Y} (f : X -> Y) (rank : Y -> nat) (l : list X) :
  descending (fun x => rank (f x)) l -> descending rank (map f l).
Proof.
  unfold descending. induction 1 as [|x l Hs IH Hall]; simpl; constructor.
  - exact IH.
  - apply Forall_map. exact Hall.
Qed.

(** C8.  Over tags with distinct ids, [getExistingTags] answers the tags in
    order of non-increasing usage count, the usage count of a tag being the
    number of links that reference it, and keeps the first 50 of that
    ranking: at most 50 rows, and exactly 50 when more than 50 tags are
    stored.  The query changes no table. *)
Theorem top_tags_ranked_and_capped (w : World) :
  NoDup (map tag_id (tags w)) ->
  exists ranked,
    Permutation ranked (map (usageRow w) (tags w)) /\
    descending tu_usageCount ranked /\
    fst (getExistingTags w)
    = Resolved (map asExistingTag (firstn CONFIG.MAX_EXISTING_TAGS ranked)) /\
    descending et_usageCount (existingTagsOf w) /\
    List.length (existingTagsOf w)
    = Nat.min CONFIG.MAX_EXISTING_TAGS (List.length (tags w)) /\
    (CONFIG.MAX_EXISTING_TAGS < List.length (tags w) ->
     List.length (existingTagsOf w) = 50) /\
    (forall e, In e (existingTagsOf w) ->
               exists t, In t (tags w) /\ et_name e = tag_name t /\
                         et_description e = tag_description t /\
                         et_usageCount e
                         = List.length (filter (fun l => tt_tagId l =? tag_id t)
                                               (ticketsTags w))) /\
    tags (snd (getExistingTags w)) = tags w /\
    ticketsTags (snd (getExistingTags w)) = ticketsTags w.
Proof.
  intros Hnd.
  exists (SQL.orderByDesc tu_usageCount (map (usageRow w) (tags w))).
  assert (Hres : existingTagsOf w
                 = map asExistingTag
                       (firstn CONFIG.MAX_EXISTING_TAGS
                          (SQL.orderByDesc tu_usageCount
                             (map (usageRow w) (tags w))))).
  { unfold existingTagsOf, getExistingTags; cbn [fst].
    now rewrite (selectTopTags_ranked w Hnd). }
  assert (Hlen : List.length (existingTagsOf w)
                 = Nat.min CONFIG.MAX_EXISTING_TAGS (List.length (tags w))).
  { rewrite Hres, length_map, length_firstn, orderByDesc_length, length_map.
    reflexivity. }
  split; [symmetry; apply orderByDesc_perm|].
  split; [apply orderByDesc_descending|].
  split; [|split; [|split; [|split; [|split; [|split]]]]].
  - unfold getExistingTags; cbn [fst]. now rewrite (selectTopTags_ranked w Hnd).
  - rewrite Hres. apply descending_map.
    apply (limit_descending tu_usageCount), orderByDesc_descending.
  - exact Hlen.
  - intros H. rewrite Hlen. unfold CONFIG.MAX_EXISTING_TAGS in *. lia.
  - intros e He. rewrite Hres in He.
    apply in_map_iff in He as [u [<- Hu]].
    apply limit_In in Hu.
    apply (Permutation_in _ (Permutation_sym (orderByDesc_perm _ _))) in Hu.
    apply in_map_iff in Hu as [t [<- Ht]].
    exists t. repeat split; try assumption.
    unfold usageRow, asExistingTag, usageOf, onTagId; cbn.
    f_equal. apply filter_ext. intros l. apply Nat.eqb_sym.
  - reflexivity.
  - reflexivity.
Qed.

Example top_tags_of_51 :
  List.length (existingTagsOf Sample.bigWorld) = 50 /\
  map et_usageCount (existingTagsOf Sample.bigWorld)
  = repeat 2 17 ++ repeat 1 17 ++ repeat 0 16.
Proof. split; vm_compute; reflexivity. Qed.

(** ** Instances on the sample setting *)

Ltac pick_event := repeat (first [left; reflexivity | right]).



Lemma second_run_keeps_single_link_witness :
  List.length (linksOf "T1" 1 Sample.afterSecond) = 1 /\
  ticketsTags Sample.afterSecond = ticketsTags Sample.afterFirst /\
  map tt_confidence (linksOf "T1" 1 Sample.afterSecond) = [Fin (42 # 100)%Q].
Proof.
  destruct (second_run_keeps_single_link
              Sample.Doc Sample.doc_text Sample.doc_images
              Sample.cfg (Sample.answers (Sample.rawWith "net" "ingress 502"
                                                         (Fin (42 # 100)%Q)))
              "gateway" Sample.ticket
              Sample.cfg (Sample.answers (Sample.rawWith "net" "gateway timeout"
                                                         (Fin (9 # 10)%Q)))
              "gateway" Sample.ticket
              "T1" 1 Sample.emptyWorld Sample.afterFirst Sample.afterSecond)
    as [Hone [Hkeep [Hsame _]]].
  - vm_compute. lia.
  - vm_compute. reflexivity.
  - vm_compute. reflexivity.
  - vm_compute. pick_event.
  - vm_compute. pick_event.
  - split; [exact Hone|]. split; [exact Hkeep|].
    rewrite Hsame. vm_compute. reflexivity.
Defined.

Lemma missing_configuration_rejected_first_witness :
  trace (Sample.run Sample.noKey (Sample.answers Sample.missing) "T1")
        Sample.emptyWorld = [] /\
  snd (Sample.run Sample.noKey (Sample.answers Sample.missing) "T1"
                  Sample.emptyWorld) = Sample.emptyWorld.
Proof.
  destruct (missing_configuration_rejected_first
              Sample.Doc Sample.doc_text Sample.doc_images Sample.noKey
              (Sample.answers Sample.missing) "T1" "gateway" Sample.ticket
              Sample.emptyWorld) as [[message [Hrun _]] [Htrace _]].
  - left. reflexivity.
  - split; [exact Htrace|]. unfold Sample.run. rewrite Hrun. reflexivity.
Defined.

Lemma findOrCreateTag_first_write_wins_witness :
  fst (findOrCreateTag "A" "other" Sample.worldWithA) = Resolved 1 /\
  tags (snd (findOrCreateTag "A" "other" Sample.worldWithA))
  = tags Sample.worldWithA /\
  fst (findOrCreateTag "B" "first" Sample.worldWithA) = Resolved 2.
Proof.
  destruct (findOrCreateTag_first_write_wins "A" "other" "later" Sample.worldWithA)
    as [Hfound _].
  destruct (findOrCreateTag_first_write_wins "B" "first" "later" Sample.worldWithA)
    as [_ [Hfresh _]].
  destruct (Hfound Sample.tagA eq_refl) as [Hid Htags].
  destruct (Hfresh eq_refl) as [Hnew _].
  split; [exact Hid|]. split; [exact Htags | exact Hnew].
Defined.

Example findOrCreateTag_twice :
  let first := findOrCreateTag "B" "first" Sample.worldWithA in
  let second := findOrCreateTag "B" "later" (snd first) in
  fst first = Resolved 2 /\ fst second = Resolved 2 /\
  map tag_description (tags (snd second)) = ["a"; "first"].
Proof. vm_compute. auto. Qed.

Lemma long_description_rejected_witness :
  fst (Sample.run Sample.cfg
         (Sample.answers (Sample.rawWith "net" Sample.longDescription
                                         (Fin (9 # 10)%Q)))
         "T1" Sample.emptyWorld) = Rejected ZodError /\
  tags (snd (Sample.run Sample.cfg
               (Sample.answers (Sample.rawWith "net" Sample.longDescription
                                               (Fin (9 # 10)%Q)))
               "T1" Sample.emptyWorld)) = [].
Proof.
  destruct (long_description_rejected
              Sample.Doc Sample.doc_text Sample.doc_images Sample.cfg
              (fun _ => Resolved (Sample.rawWith "net" Sample.longDescription
                                                 (Fin (9 # 10)%Q)))
              "T1" "gateway" Sample.ticket Sample.emptyWorld
              (Sample.rawWith "net" Sample.longDescription (Fin (9 # 10)%Q))
              Sample.longDescription) as [Hr [Ht _]].
  - split; reflexivity.
  - reflexivity.
  - reflexivity.
  - vm_compute. lia.
  - split; [exact Hr | exact Ht].
Defined.

(** An answer with a description of 42 units: the run is rejected and no
    tag carries the description, no tag at all having been written. *)
Lemma long_description_not_persisted :
  let run := Sample.run Sample.cfg
               (Sample.answers (Sample.rawWith "net" Sample.longDescription
                                               (Fin (9 # 10)%Q)))
               "T1" Sample.emptyWorld in
  CONFIG.MAX_DESCRIPTION_LENGTH < utf16_length Sample.longDescription /\
  fst run = Rejected ZodError /\
  tags (snd run) = [] /\ ticketsTags (snd run) = [] /\
  ~ exists t, In t (tags (snd run)) /\ tag_description t = Sample.longDescription.
Proof.
  cbv zeta. split; [vm_compute; lia|]. split; [vm_compute; reflexivity|].
  split; [vm_compute; reflexivity|]. split; [vm_compute; reflexivity|].
  intros [t [Hin _]]. vm_compute in Hin. exact Hin.
Qed.

Lemma analysis_fallbacks_witness :
  exists a,
    fst (analyzeWithAI Sample.Doc Sample.doc_text Sample.doc_images Sample.cfg
           (Sample.answers Sample.emptyNamed) "gateway" Sample.ticket []
           Sample.emptyWorld) = Resolved a /\
    AIAnalysisResult.name a = "其他问题" /\
    AIAnalysisResult.description a = "未明确分类的问题" /\
    AIAnalysisResult.reasoning a = Null.
Proof.
  destruct (analysis_fallbacks
              Sample.Doc Sample.doc_text Sample.doc_images Sample.cfg
              (Sample.answers Sample.emptyNamed)
              (fun _ => Resolved Sample.missing)
              "gateway" Sample.ticket [] Sample.emptyWorld Sample.emptyNamed)
    as [Hin _].
  destruct (Hin eq_refl) as [n [d [a [Hn [Hd [Ha [Hne [_ [Hde [_ Hr]]]]]]]]]].
  inversion Hn; subst n. inversion Hd; subst d.
  exists a. split; [exact Ha|]. split; [exact (Hne eq_refl)|].
  split; [exact (Hde eq_refl) | exact Hr].
Defined.

(** An answer without name and description is rejected, not given the
    fallbacks; an answer with both empty gets fallbacks that are not the
    English texts. *)
Lemma missing_fields_rejected_not_defaulted :
  fst (analyzeWithAI Sample.Doc Sample.doc_text Sample.doc_images Sample.cfg
         (Sample.answers Sample.missing) "gateway" Sample.ticket []
         Sample.emptyWorld) = Rejected ZodError /\
  exists a,
    fst (analyzeWithAI Sample.Doc Sample.doc_text Sample.doc_images Sample.cfg
           (Sample.answers Sample.emptyNamed) "gateway" Sample.ticket []
           Sample.emptyWorld) = Resolved a /\
    AIAnalysisResult.name a <> "uncategorized" /\
    AIAnalysisResult.description a <> "unclassified issue".
Proof.
  split; [vm_compute; reflexivity|].
  eexists. split; [vm_compute; reflexivity|]. split; discriminate.
Qed.

Lemma zero_confidence_never_persisted_witness :
  exists c,
    In (InsertLink "T1" 1 c)
       (trace (Sample.run Sample.cfg
                 (Sample.answers (Sample.rawWith "net" "x" (Fin 0%Q))) "T1")
              Sample.emptyWorld) /\
    exists q, c = Fin q /\ (0 < q)%Q /\ (q <= 1)%Q.
Proof.
  exists (clampConfidence (Some (Fin 0%Q))).
  assert (H : In (InsertLink "T1" 1 (clampConfidence (Some (Fin 0%Q))))
                 (trace (Sample.run Sample.cfg
                           (Sample.answers (Sample.rawWith "net" "x" (Fin 0%Q)))
                           "T1")
                        Sample.emptyWorld))
    by (vm_compute; pick_event).
  split; [exact H|].
  destruct (zero_confidence_never_persisted
              Sample.Doc Sample.doc_text Sample.doc_images Sample.cfg
              (Sample.answers (Sample.rawWith "net" "x" (Fin 0%Q)))
              "T1" "gateway" Sample.ticket Sample.emptyWorld) as [_ Hlinks].
  exact (Hlinks _ _ _ H).
Defined.



Lemma top_tags_ranked_and_capped_witness :
  List.length (existingTagsOf Sample.bigWorld) = 50.
Proof.
  assert (H : NoDup (map tag_id (tags Sample.bigWorld))).
  { unfold Sample.bigWorld, Sample.manyTags; cbn [tags].
    rewrite map_map; cbn [tag_id]. rewrite seq_shift. apply seq_NoDup. }
  destruct (top_tags_ranked_and_capped Sample.bigWorld H)
    as [ranked [_ [_ [_ [_ [_ [Hcap _]]]]]]].
  apply Hcap. vm_compute. lia.
Defined.

Lemma buildUserContent_blocks_witness :
  List.length (buildUserContent Sample.Doc Sample.doc_text Sample.doc_images
                                "t" Sample.nineImages) = 7.
Proof.
  destruct (buildUserContent_blocks Sample.Doc Sample.doc_text Sample.doc_images
                                    "t" Sample.nineImages) as [_ [Hlen _]].
  exact Hlen.
Defined.

(** * Further properties of the module *)

(** ** The link service *)

(** [isTicketTagLinked] answers [true] exactly when a link of that ticket
    and tag is stored, and reads only. *)
Theorem isTicketTagLinked_exact (ticketId : string) (tagId : nat) (w : World) :
  exists b,
    fst (isTicketTagLinked ticketId tagId w) = Resolved b /\
    (b = true <-> exists l, In l (ticketsTags w) /\ tt_ticketId l = ticketId /\
                            tt_tagId l = tagId) /\
    tags (snd (isTicketTagLinked ticketId tagId w)) = tags w /\
    ticketsTags (snd (isTicketTagLinked ticketId tagId w)) = ticketsTags w.
Proof.
  rewrite isTicketTagLinked_spec. cbn [fst snd]. eexists. split; [reflexivity|].
  split; [|split; reflexivity].
  destruct (linksOf ticketId tagId w) as [|l ls] eqn:L; split.
  - discriminate.
  - intros [l [Hin [Ht Hg]]]. exfalso.
    assert (Hl : In l (linksOf ticketId tagId w)).
    { unfold linksOf. apply filter_In. split; [exact Hin|].
      rewrite Ht, Hg, String.eqb_refl, Nat.eqb_refl. reflexivity. }
    rewrite L in Hl. contradiction.
  - intros _. exists l.
    assert (Hl : In l (linksOf ticketId tagId w)) by (rewrite L; now left).
    unfold linksOf in Hl. apply filter_In in Hl as [Hin Hp].
    apply andb_true_iff in Hp as [Ht Hg].
    apply String.eqb_eq in Ht. apply Nat.eqb_eq in Hg. auto.
  - reflexivity.
Qed.

Lemma linksOf_linked (t : string) (g : nat) (c : number) (w : World)
      (t' : string) (g' : nat) :
  linksOf t' g' (snd (linkTicketToTag t g c w))
  = linksOf t' g' w
      ++ (if String.eqb t t' && (g =? g')
          then [{| tt_id := S (linkSeq w); tt_ticketId := t; tt_tagId := g;
                   tt_confidence := c; tt_isAiGenerated := true;
                   tt_createdAt := now w |}]
          else []).
Proof.
  unfold linkTicketToTag, linksOf, emit; cbn [snd ticketsTags].
  rewrite filter_app. cbn [filter tt_ticketId tt_tagId].
  destruct (String.eqb t t' && (g =? g')); reflexivity.
Qed.

(** Insert, then look up: once [linkTicketToTag] has run for a pair,
    [isTicketTagLinked] answers [true] for it, and its answer for any other
    pair is what it was. *)
Theorem link_then_linked (t : string) (g : nat) (c : number) (w : World) :
  let w' := snd (linkTicketToTag t g c w) in
  fst (isTicketTagLinked t g w') = Resolved true /\
  forall t' g', t' <> t \/ g' <> g ->
                fst (isTicketTagLinked t' g' w') = fst (isTicketTagLinked t' g' w).
Proof.
  cbv zeta. split.
  - rewrite isTicketTagLinked_spec, linksOf_linked; cbn [fst].
    rewrite String.eqb_refl, Nat.eqb_refl; cbn [andb].
    destruct (linksOf t g w); reflexivity.
  - intros t' g' Hd. rewrite !isTicketTagLinked_spec, linksOf_linked; cbn [fst].
    assert (E : String.eqb t t' && (g =? g') = false).
    { apply andb_false_iff. destruct Hd as [Hd|Hd].
      - left. apply String.eqb_neq. congruence.
      - right. apply Nat.eqb_neq. congruence. }
    rewrite E, app_nil_r. reflexivity.
Qed.

(** [linkTicketToTag] has no guard of its own: it adds a row for the pair
    whatever is stored, so on a pair that is linked already it breaks the
    one-link-per-pair rule; other pairs and the tags are left alone. *)
Theorem linkTicketToTag_unguarded (t : string) (g : nat) (c : number) (w : World) :
  let w' := snd (linkTicketToTag t g c w) in
  fst (linkTicketToTag t g c w) = Resolved tt /\
  List.length (linksOf t g w') = S (List.length (linksOf t g w)) /\
  (forall t' g', t' <> t \/ g' <> g -> linksOf t' g' w' = linksOf t' g' w) /\
  tags w' = tags w /\
  (linksOf t g w <> [] -> ~ linksUnique w').
Proof.
  cbv zeta.
  assert (Hlen : List.length (linksOf t g (snd (linkTicketToTag t g c w)))
                 = S (List.length (linksOf t g w))).
  { rewrite linksOf_linked, String.eqb_refl, Nat.eqb_refl; cbn [andb].
    rewrite length_app. simpl. lia. }
  split; [reflexivity|]. split; [exact Hlen|]. split; [|split; [reflexivity|]].
  - intros t' g' Hd. rewrite linksOf_linked.
    assert (E : String.eqb t t' && (g =? g') = false).
    { apply andb_false_iff. destruct Hd as [Hd|Hd].
      - left. apply String.eqb_neq. congruence.
      - right. apply Nat.eqb_neq. congruence. }
    rewrite E. apply app_nil_r.
  - intros Hne Hu. specialize (Hu t g). rewrite Hlen in Hu.
    destruct (linksOf t g w); [contradiction | simpl in Hu; lia].
Qed.

(** ** The taxonomy resolver, other names *)

Lemma find_app_cases {A} (p : A -> bool) (l r : list A) :
  find p (l ++ r) = match find p l with Some x => Some x | None => find p r end.
Proof.
  induction l as [|x l IH]; simpl; [reflexivity|].
  destruct (p x); [reflexivity | exact IH].
Qed.

Lemma tagNamed_absent (n : string) (w : World) :
  tagNamed n w = None -> ~ In n (map tag_name (tags w)).
Proof.
  intros H Hin. apply in_map_iff in Hin as [t [Hn Ht]].
  unfold tagNamed in H. apply (find_none _ _ H) in Ht.
  rewrite Hn, String.eqb_refl in Ht. discriminate.
Qed.

Lemma tagNamed_stored (n : string) (w : World) (e : TagRow) :
  tagNamed n w = Some e -> In e (tags w) /\ tag_name e = n.
Proof.
  intros H. apply find_some in H as [Hin Hn].
  apply String.eqb_eq in Hn. auto.
Qed.

(** [findOrCreateTag] leaves every other name as it was: a lookup by
    another name answers the same tag before and after, the stored tags
    stay in place, no link is touched, and names that were pairwise
    different stay so. *)
Theorem findOrCreateTag_frame (n d : string) (w : World) :
  let w' := snd (findOrCreateTag n d w) in
  (forall m, m <> n -> tagNamed m w' = tagNamed m w) /\
  (exists added, tags w' = tags w ++ added /\ List.length added <= 1) /\
  ticketsTags w' = ticketsTags w /\
  (namesUnique w -> namesUnique w').
Proof.
  cbv zeta. destruct (tagNamed n w) as [e|] eqn:E.
  - rewrite (findOrCreateTag_found n d w e E). cbn [snd].
    split; [reflexivity|]. split; [|split; [reflexivity | auto]].
    exists []. rewrite app_nil_r. split; [reflexivity | simpl; lia].
  - rewrite (findOrCreateTag_fresh n d w E). cbn [snd].
    split; [|split; [|split]].
    + intros m Hm. unfold tagNamed; cbn [tags]. rewrite find_app_cases.
      destruct (find _ (tags w)); [reflexivity|].
      cbn [find tag_name].
      destruct (String.eqb_spec n m) as [->|]; [contradiction | reflexivity].
    + eexists. split; [reflexivity | simpl; lia].
    + reflexivity.
    + unfold namesUnique; cbn [tags]. intros Hnd.
      rewrite map_app; cbn [map tag_name].
      apply NoDup_app; [exact Hnd | repeat constructor; simpl; tauto |].
      intros m Hin [<-|[]]. now apply (tagNamed_absent n w E).
Qed.

(** ** Runs of the orchestrator, outcome by outcome *)

Section Outcomes.

Variable JSONContentZod : Type.
Variable extractTextWithoutImages : JSONContentZod -> string.
Variable extractImageUrls : JSONContentZod -> list string.

Abbreviation analyzeAndSave :=
  (analyzeAndSaveHotIssue JSONContentZod extractTextWithoutImages extractImageUrls).
Abbreviation analyze :=
  (analyzeWithAI JSONContentZod extractTextWithoutImages extractImageUrls).
Abbreviation request :=
  (requestFor JSONContentZod extractTextWithoutImages extractImageUrls).
Abbreviation reachable :=
  (Reachable JSONContentZod extractTextWithoutImages extractImageUrls).

(** The three ways a run can end. *)
Lemma run_cases cfg (service : Completion) ticketId title description w :
  let rq := request cfg title description w in
  let r := analyzeAndSave cfg service ticketId title description w in
  (exists message, r = (Rejected (Error message), w)) \/
  (exists e, service rq = Rejected e /\
             r = (Rejected e, emit (Invoke rq) (emit SelectTopTags w))) \/
  (exists raw, configured cfg /\ service rq = Resolved raw /\
               r = (Resolved tt, savedWorld rq ticketId (normalizeResult raw) w)).
Proof.
  cbv zeta. destruct (configured_dec cfg) as [Hc|Hc].
  - destruct (service (request cfg title description w)) as [raw|e] eqn:Hs.
    + right; right. exists raw. split; [exact Hc|]. split; [reflexivity|].
      now apply analyzeAndSaveHotIssue_run.
    + right; left. exists e. split; [reflexivity|].
      now apply analyzeAndSaveHotIssue_rejected.
  - left. now apply analyzeAndSaveHotIssue_unconfigured.
Qed.

(** A failing completion call ends the run with that very error; by then
    the vocabulary has been read and the call made, and no tag or link has
    been written. *)
Theorem completion_failure_writes_nothing
        cfg (service : Completion) ticketId title description w e :
  configured cfg ->
  service (request cfg title description w) = Rejected e ->
  let r := analyzeAndSave cfg service ticketId title description w in
  fst r = Rejected e /\
  tags (snd r) = tags w /\ ticketsTags (snd r) = ticketsTags w /\
  tagSeq (snd r) = tagSeq w /\ linkSeq (snd r) = linkSeq w /\
  trace (analyzeAndSave cfg service ticketId title description) w
  = [SelectTopTags; Invoke (request cfg title description w)].
Proof.
  intros Hc Hs. cbv zeta.
  rewrite (analyzeAndSaveHotIssue_rejected _ _ _ _ _ _ _ _ _ _ Hc Hs).
  cbn [fst snd]. repeat split.
  apply trace_emitted.
  rewrite (analyzeAndSaveHotIssue_rejected _ _ _ _ _ _ _ _ _ _ Hc Hs).
  unfold emit; cbn [snd log]. now rewrite <- app_assoc.
Qed.

(** Whatever its outcome, a run only appends: the stored tags and links
    stay in place, at most one tag and at most one link are added, both
    marked as generated, and an added link is for the ticket of the run and
    is stamped with the storage clock. *)
Theorem run_appends_only cfg (service : Completion) ticketId title description w :
  let w' := snd (analyzeAndSave cfg service ticketId title description w) in
  exists newTags newLinks,
    tags w' = tags w ++ newTags /\
    ticketsTags w' = ticketsTags w ++ newLinks /\
    List.length newTags <= 1 /\ List.length newLinks <= 1 /\
    (forall t, In t newTags -> tag_isAiGenerated t = true) /\
    (forall l, In l newLinks ->
               tt_ticketId l = ticketId /\ tt_isAiGenerated l = true /\
               tt_createdAt l = now w).
Proof.
  cbv zeta.
  destruct (run_cases cfg service ticketId title description w)
    as [[m H]|[[e [_ H]]|[raw [_ [_ H]]]]]; rewrite H; cbn [snd].
  - exists [], []. rewrite !app_nil_r.
    split; [reflexivity|]. split; [reflexivity|].
    split; [simpl; lia|]. split; [simpl; lia|]. split; intros x [].
  - exists [], []. cbn [emit tags ticketsTags]. rewrite !app_nil_r.
    split; [reflexivity|]. split; [reflexivity|].
    split; [simpl; lia|]. split; [simpl; lia|]. split; intros x [].
  - unfold savedWorld; cbn [tags ticketsTags].
    destruct (tagNamed _ w); destruct (linksOf _ _ w);
      eexists; eexists;
      (split; [try reflexivity; symmetry; apply app_nil_r|]);
      (split; [try reflexivity; symmetry; apply app_nil_r|]);
      (split; [simpl; lia|]); (split; [simpl; lia|]);
      split; simpl; intros x Hx; try contradiction;
        destruct Hx as [<-|[]]; auto.
Qed.

(** After a run that resolves, the ticket is linked to the stored tag that
    bears the name of the normalised analysis. *)
Theorem resolved_run_links_ticket
        cfg (service : Completion) ticketId title description w raw :
  configured cfg ->
  service (request cfg title description w) = Resolved raw ->
  let r := analyzeAndSave cfg service ticketId title description w in
  fst r = Resolved tt /\
  exists e l,
    tagNamed (AIAnalysisResult.name (normalizeResult raw)) (snd r) = Some e /\
    In e (tags (snd r)) /\
    In l (ticketsTags (snd r)) /\
    tt_ticketId l = ticketId /\ tt_tagId l = tag_id e.
Proof.
  intros Hc Hs. cbv zeta.
  rewrite (analyzeAndSaveHotIssue_run _ _ _ _ _ _ _ _ _ _ Hc Hs).
  cbn [fst snd]. split; [reflexivity|].
  set (rq := request cfg title description w). set (a := normalizeResult raw).
  destruct (tagNamed_saved rq ticketId a w) as [e [He [Hid _]]].
  pose proof (linksOf_same_pair rq ticketId a w) as Hne.
  destruct (linksOf ticketId (resolvedTagId (AIAnalysisResult.name a) w)
                    (savedWorld rq ticketId a w)) as [|l ls] eqn:L;
    [contradiction|].
  assert (Hl : In l (linksOf ticketId (resolvedTagId (AIAnalysisResult.name a) w)
                             (savedWorld rq ticketId a w)))
    by (rewrite L; now left).
  unfold linksOf in Hl. apply filter_In in Hl as [Hin Hp].
  apply andb_true_iff in Hp as [Ht Hg].
  apply String.eqb_eq in Ht. apply Nat.eqb_eq in Hg.
  exists e, l. split; [exact He|]. split; [now apply (tagNamed_stored _ _ _ He)|].
  split; [exact Hin|]. split; [exact Ht | congruence].
Qed.

Lemma writes_after (pre rest : list Event) :
  (forall e, In e pre -> isWrite e = false) ->
  forall before e after,
    pre ++ rest = before ++ e :: after -> isWrite e = true ->
    forall x, In x pre -> In x before.
Proof.
  induction pre as [|p pre IH]; intros Hpre before e after H Hw x Hx;
    [contradiction|].
  destruct before as [|b before]; simpl in H; inversion H; subst.
  - rewrite Hpre in Hw by now left. discriminate.
  - destruct Hx as [<-|Hx]; [now left|]. right.
    eapply IH; eauto. intros e' He'. apply Hpre. now right.
Qed.

(** In any run the completion service is called at most once, and every
    write to storage comes after the vocabulary was read and the completion
    call was made. *)
Theorem writes_follow_the_completion cfg (service : Completion) ticketId title description w :
  let tr := trace (analyzeAndSave cfg service ticketId title description) w in
  List.length (filter isInvoke tr) <= 1 /\
  forall before e after,
    tr = before ++ e :: after -> isWrite e = true ->
    In SelectTopTags before /\
    In (Invoke (request cfg title description w)) before.
Proof.
  cbv zeta. rewrite analyzeAndSaveHotIssue_trace. cbv zeta.
  destruct (configured_dec cfg) as [Hc|Hc].
  - destruct (service (request cfg title description w)) as [raw|err].
    + split.
      * destruct (tagNamed _ w), (linksOf _ _ w); simpl; lia.
      * intros before e after H Hw.
        change ([SelectTopTags; Invoke (request cfg title description w);
                 SelectTagByName (AIAnalysisResult.name (normalizeResult raw))]
                  ++ ?r = _)
          with ([SelectTopTags; Invoke (request cfg title description w)]
                  ++ (SelectTagByName (AIAnalysisResult.name (normalizeResult raw))
                        :: r) = before ++ e :: after) in H.
        assert (Hpre : forall x,
                   In x [SelectTopTags; Invoke (request cfg title description w)] ->
                   In x before).
        { eapply writes_after; [|exact H|exact Hw].
          intros e' [<-|[<-|[]]]; reflexivity. }
        split; apply Hpre; simpl; auto.
    + split; [simpl; lia|]. intros before e after H Hw.
      assert (Hpre : forall x,
                 In x [SelectTopTags; Invoke (request cfg title description w)] ->
                 In x before).
      { eapply (writes_after _ []); [|rewrite app_nil_r; exact H|exact Hw].
        intros e' [<-|[<-|[]]]; reflexivity. }
      split; apply Hpre; simpl; auto.
  - split; [simpl; lia|]. intros before e after H.
    exfalso. eapply app_cons_not_nil. exact H.
Qed.

Lemma saved_sound (rq : Request) (ticketId : string) (a : AIAnalysisResult.t)
      (w : World) :
  unitInterval (AIAnalysisResult.confidence a) ->
  namesUnique w /\ linksReferTags w /\ linksKeyed w /\ rowsGenerated w ->
  let w' := savedWorld rq ticketId a w in
  namesUnique w' /\ linksReferTags w' /\ linksKeyed w' /\ rowsGenerated w'.
Proof.
  intros Hc [Hn [Hr [[Hnd Hle] [Hgt Hgl]]]]. cbv zeta.
  destruct (tagNamed_saved rq ticketId a w) as [e [He [Hid _]]].
  apply tagNamed_stored in He as [Hein _].
  assert (Hext : forall i, In i (map tag_id (tags w)) ->
                           In i (map tag_id (tags (savedWorld rq ticketId a w)))).
  { intros i Hi. unfold savedWorld; cbn [tags].
    destruct (tagNamed _ w); [exact Hi|].
    rewrite map_app. apply in_or_app. now left. }
  split; [|split; [|split]].
  - unfold namesUnique, savedWorld in *; cbn [tags].
    destruct (tagNamed _ w) eqn:E; [exact Hn|].
    rewrite map_app; cbn [map tag_name].
    apply NoDup_app; [exact Hn | repeat constructor; simpl; tauto |].
    intros m Hin [<-|[]]. now apply (tagNamed_absent _ w E).
  - intros l Hl. unfold savedWorld in Hl; cbn [ticketsTags] in Hl.
    destruct (linksOf _ _ w).
    + apply in_app_or in Hl as [Hl|[<-|[]]]; [now apply Hext, Hr|].
      cbn [tt_tagId]. rewrite <- Hid. now apply in_map.
    + now apply Hext, Hr.
  - unfold linksKeyed, savedWorld; cbn [ticketsTags linkSeq].
    destruct (linksOf _ _ w); [|split; assumption]. split.
    + rewrite map_app; cbn [map tt_id].
      apply NoDup_app; [exact Hnd | repeat constructor; simpl; tauto |].
      intros i Hi [<-|[]]. apply in_map_iff in Hi as [l [Hl Hin]].
      rewrite Forall_forall in Hle. specialize (Hle l Hin). lia.
    + apply Forall_app; split.
      * eapply Forall_impl; [|exact Hle]. simpl; intros; lia.
      * repeat constructor.
  - unfold rowsGenerated, savedWorld; cbn [tags ticketsTags]. split.
    + destruct (tagNamed _ w); [exact Hgt|].
      apply Forall_app; split; [exact Hgt | repeat constructor].
    + destruct (linksOf _ _ w); [|exact Hgl].
      apply Forall_app; split; [exact Hgl|].
      repeat constructor. exact Hc.
Qed.

(** Every store the module produces on its own is sound: tag names are
    pairwise different, every link points at a stored tag, link ids are
    pairwise different, and every row is marked as generated, a link with a
    confidence in [[0,1]]. *)
Theorem reachable_store_sound (w : World) :
  reachable w ->
  namesUnique w /\ linksReferTags w /\ linksKeyed w /\ rowsGenerated w.
Proof.
  induction 1 as [t | w cfg service ticketId title description _ IH
                  | w timeRange _ IH | w t _ IH].
  - unfold namesUnique, linksReferTags, linksKeyed, rowsGenerated; simpl.
    repeat split; try constructor. intros l [].
  - destruct (run_cases cfg service ticketId title description w)
      as [[m H]|[[e [_ H]]|[raw [_ [_ H]]]]]; rewrite H; cbn [snd].
    + exact IH.
    + exact IH.
    + apply saved_sound; [apply clampConfidence_unit | exact IH].
  - exact IH.
  - exact IH.
Qed.

(** Two runs for one ticket whose analyses carry the same name, whatever
    their descriptions and confidences: the second resolves, creates no tag
    and no link, and the ticket has exactly one link to that tag. *)
Theorem same_name_runs_link_once
        cfg1 (service1 : Completion) title1 description1 cfg2 (service2 : Completion) title2 description2
        ticketId w raw1 raw2 :
  let w1 := snd (analyzeAndSave cfg1 service1 ticketId title1 description1 w) in
  let r2 := analyzeAndSave cfg2 service2 ticketId title2 description2 w1 in
  let g := resolvedTagId (AIAnalysisResult.name (normalizeResult raw1)) w in
  configured cfg1 -> configured cfg2 ->
  service1 (request cfg1 title1 description1 w) = Resolved raw1 ->
  service2 (request cfg2 title2 description2 w1) = Resolved raw2 ->
  AIAnalysisResult.name (normalizeResult raw2)
  = AIAnalysisResult.name (normalizeResult raw1) ->
  List.length (linksOf ticketId g w) <= 1 ->
  fst r2 = Resolved tt /\
  tags (snd r2) = tags w1 /\
  ticketsTags (snd r2) = ticketsTags w1 /\
  List.length (linksOf ticketId g (snd r2)) = 1.
Proof.
  cbv zeta. intros Hc1 Hc2 Hs1.
  rewrite (analyzeAndSaveHotIssue_run _ _ _ _ _ _ _ _ _ _ Hc1 Hs1). cbn [snd].
  set (rq1 := request cfg1 title1 description1 w).
  set (a1 := normalizeResult raw1).
  set (w1 := savedWorld rq1 ticketId a1 w).
  intros Hs2 Hname Hle.
  rewrite (analyzeAndSaveHotIssue_run _ _ _ _ _ _ _ _ _ _ Hc2 Hs2). cbn [fst snd].
  set (rq2 := request cfg2 title2 description2 w1).
  set (a2 := normalizeResult raw2) in *.
  set (g := resolvedTagId (AIAnalysisResult.name a1) w) in *.
  assert (Hg : resolvedTagId (AIAnalysisResult.name a2) w1 = g).
  { rewrite Hname. apply same_name_same_tag. }
  assert (Hne : linksOf ticketId g w1 <> []) by apply linksOf_same_pair.
  assert (Hkeep : ticketsTags (savedWorld rq2 ticketId a2 w1) = ticketsTags w1).
  { apply saved_links_kept. now rewrite Hg. }
  split; [reflexivity|]. split; [|split; [exact Hkeep|]].
  - destruct (tagNamed_saved rq1 ticketId a1 w) as [e [He _]].
    fold w1 in He. unfold savedWorld; cbn [tags]. rewrite Hname.
    now rewrite He.
  - unfold linksOf at 1. rewrite Hkeep. fold (linksOf ticketId g w1).
    now apply saved_same_pair_once.
Qed.

(** A run that links a ticket afresh shows in the statistics at once: for
    any range that contains the storage clock, the tag of the analysis has
    a row, with a count of at least one. *)
Theorem fresh_link_shows_in_stats
        cfg (service : Completion) ticketId title description w raw timeRange :
  let n := AIAnalysisResult.name (normalizeResult raw) in
  let w' := snd (analyzeAndSave cfg service ticketId title description w) in
  configured cfg ->
  service (request cfg title description w) = Resolved raw ->
  tagsKeyed w ->
  linksOf ticketId (resolvedTagId n w) w = [] ->
  (start timeRange <= now w <= end_ timeRange)%Z ->
  exists row, In row (selectTagStats timeRange w') /\
              tag row = n /\ 1 <= count row.
Proof.
  cbv zeta. intros Hc Hs Hk Hfresh Hnow.
  rewrite (analyzeAndSaveHotIssue_run _ _ _ _ _ _ _ _ _ _ Hc Hs). cbn [snd].
  set (rq := request cfg title description w). set (a := normalizeResult raw) in *.
  set (w' := savedWorld rq ticketId a w).
  destruct (tagsKeyed_saved rq ticketId a w Hk) as [Hnd _]. fold w' in Hnd.
  destruct (tagNamed_saved rq ticketId a w) as [e [He [Hid _]]]. fold w' in He.
  apply tagNamed_stored in He as [Hein Hename].
  set (l0 := {| tt_id := S (linkSeq w); tt_ticketId := ticketId;
                tt_tagId := resolvedTagId (AIAnalysisResult.name a) w;
                tt_confidence := AIAnalysisResult.confidence a;
                tt_isAiGenerated := true; tt_createdAt := now w |}).
  assert (Hl0 : In l0 (linksInRange timeRange w' e)).
  { unfold linksInRange. apply filter_In. split.
    - unfold w', savedWorld; cbn [ticketsTags]. rewrite Hfresh.
      apply in_or_app. right. now left.
    - unfold onTagId, inRange, l0; cbn [tt_tagId tt_createdAt].
      rewrite Hid, Nat.eqb_refl. cbn [andb].
      apply andb_true_iff. split; apply Z.leb_le; lia. }
  exists (statOf timeRange w' e). split; [|split].
  - rewrite (selectTagStats_ranked timeRange w' Hnd).
    eapply Permutation_in; [apply orderByDesc_perm|].
    apply in_map. apply filter_In. split; [exact Hein|].
    unfold hasLinksInRange. destruct (linksInRange timeRange w' e);
      [contradiction | reflexivity].
  - exact Hename.
  - unfold statOf; cbn [count].
    destruct (linksInRange timeRange w' e); [contradiction | simpl; lia].
Qed.

Lemma or_string_nonempty (x : option string) (d : string) :
  d <> EmptyString -> or_string x d <> EmptyString.
Proof.
  intros Hd. destruct x as [[|c s]|]; simpl; [exact Hd | discriminate | exact Hd].
Qed.

(** Whatever the completion service answers, an analysis the client
    returns has a name and a description that are not empty and a
    confidence in [[0,1]]. *)
Theorem analysis_well_formed cfg (service : Completion) title description existingTags w a :
  fst (analyze cfg service title description existingTags w) = Resolved a ->
  AIAnalysisResult.name a <> EmptyString /\
  AIAnalysisResult.description a <> EmptyString /\
  unitInterval (AIAnalysisResult.confidence a).
Proof.
  rewrite analyzeWithAI_spec. cbv zeta. cbn [fst].
  destruct (service _) as [raw|e]; [|discriminate].
  intros H. inversion H; subst a.
  cbn [normalizeResult AIAnalysisResult.name AIAnalysisResult.description
       AIAnalysisResult.confidence].
  split; [apply or_string_nonempty; discriminate|].
  split; [apply or_string_nonempty; discriminate | apply clampConfidence_unit].
Qed.

End Outcomes.

(** ** The re-validation on answers that respect the schema *)

(** An answer that respects the schema and has a non-empty name, a
    non-empty description and a confidence other than zero comes out of the
    re-validation exactly as it came in. *)
Theorem schema_conforming_answer_kept (raw : RawAnalysis) (n d : string)
        (c : number) :
  hotIssueAnalysisSchema raw = true ->
  raw_name raw = Some n -> raw_description raw = Some d ->
  raw_confidence raw = Some c ->
  n <> EmptyString -> d <> EmptyString -> truthy_number c = true ->
  normalizeResult raw
  = {| AIAnalysisResult.name := n; AIAnalysisResult.description := d;
       AIAnalysisResult.confidence := c;
       AIAnalysisResult.reasoning := raw_reasoning raw |}.
Proof.
  intros Hs Hn Hd Hc Hne Hde Ht. unfold hotIssueAnalysisSchema in Hs.
  rewrite Hn, Hd, Hc in Hs.
  apply andb_true_iff in Hs as [Hs H1]. apply andb_true_iff in Hs as [Hs H0].
  apply andb_true_iff in Hs as [_ Hnan].
  apply negb_true_iff in H1, H0, Hnan.
  unfold normalizeResult. rewrite Hn, Hd, Hc.
  rewrite !or_string_present by assumption. f_equal.
  destruct c as [ | | | q]; try discriminate.
  apply clampConfidence_inside; [|exact H1].
  apply lt_Fin. apply lt_Fin_false in H0.
  apply Qle_lteq in H0 as [H0|H0]; [exact H0|].
  exfalso. symmetry in H0. apply truthy_Fin in H0. congruence.
Qed.

(** ** The instruction prompt *)

Lemma occursIn_refl (s : string) : occursIn s s.
Proof.
  exists EmptyString, EmptyString. simpl.
  induction s as [|c s IH]; simpl; [reflexivity | now rewrite <- IH].
Qed.

Lemma string_app_assoc (a b c : string) :
  ((a ++ b) ++ c = a ++ (b ++ c))%string.
Proof. induction a as [|x a IH]; simpl; [reflexivity | now rewrite IH]. Qed.

Lemma occursIn_trans (a b c : string) :
  occursIn a b -> occursIn b c -> occursIn a c.
Proof.
  intros [p1 [q1 H1]] [p2 [q2 H2]]. subst b c.
  exists (p2 ++ p1)%string, (q1 ++ q2)%string.
  now rewrite !string_app_assoc.
Qed.

Lemma occursIn_join (sep x : string) (l : list string) :
  In x l -> occursIn x (join sep l).
Proof.
  induction l as [|y l IH]; intros Hin; [contradiction|].
  destruct l as [|z l].
  - destruct Hin as [->|[]]. apply occursIn_refl.
  - change (join sep (y :: z :: l)) with (y ++ sep ++ join sep (z :: l))%string.
    destruct Hin as [->|Hin].
    + exists EmptyString, (sep ++ join sep (z :: l))%string. reflexivity.
    + destruct (IH Hin) as [p [q H]].
      exists (y ++ sep ++ p)%string, q. rewrite H.
      now rewrite !string_app_assoc.
Qed.

Lemma tagsText_in_prompt (existingTags : list ExistingTag) :
  occursIn (tagsText existingTags) (buildSystemPrompt existingTags).
Proof.
  unfold buildSystemPrompt. apply occursIn_join. cbn [In].
  repeat (first [left; reflexivity | right]).
Qed.

Lemma tagLine_in_prompt (existingTags : list ExistingTag) (t : ExistingTag) :
  In t existingTags -> occursIn (tagLine t) (buildSystemPrompt existingTags).
Proof.
  intros Ht. eapply occursIn_trans; [|apply tagsText_in_prompt].
  unfold tagsText. destruct existingTags as [|t0 ts]; [contradiction|].
  cbn [List.length Nat.ltb Nat.leb]. apply occursIn_join.
  apply (in_map tagLine) in Ht. exact Ht.
Qed.

(** The prompt shows the model the whole vocabulary it was given: the line
    of every tag, with its name, description and usage count, occurs in
    it; for an empty vocabulary the marker [暂无现有标签] occurs instead. *)
Theorem prompt_lists_vocabulary (existingTags : list ExistingTag) :
  (forall t, In t existingTags ->
             occursIn (tagLine t) (buildSystemPrompt existingTags)) /\
  (existingTags = [] -> occursIn "暂无现有标签" (buildSystemPrompt existingTags)).
Proof.
  split.
  - intros t. apply tagLine_in_prompt.
  - intros ->. apply (tagsText_in_prompt []).
Qed.

(** ** The vocabulary query, beyond the cap *)

Lemma existingTagsOf_whole (w : World) :
  NoDup (map tag_id (tags w)) ->
  List.length (tags w) <= CONFIG.MAX_EXISTING_TAGS ->
  Permutation (existingTagsOf w)
              (map (fun t => asExistingTag (usageRow w t)) (tags w)).
Proof.
  intros Hnd Hlen.
  unfold existingTagsOf, getExistingTags; cbn [fst].
  rewrite (selectTopTags_ranked w Hnd). unfold SQL.limit.
  rewrite firstn_all2 by (rewrite orderByDesc_length, length_map; exact Hlen).
  rewrite <- (map_map (usageRow w) asExistingTag).
  apply Permutation_map. symmetry. apply orderByDesc_perm.
Qed.

(** Up to 50 stored tags, [getExistingTags] lists every one of them once,
    tags that no link references included, with a usage count of 0. *)
Theorem small_vocabulary_listed_whole (w : World) :
  NoDup (map tag_id (tags w)) ->
  List.length (tags w) <= CONFIG.MAX_EXISTING_TAGS ->
  Permutation (existingTagsOf w)
              (map (fun t => asExistingTag (usageRow w t)) (tags w)) /\
  (forall t, In t (tags w) -> filter (onTagId t) (ticketsTags w) = [] ->
             In {| et_name := tag_name t; et_description := tag_description t;
                   et_usageCount := 0 |} (existingTagsOf w)).
Proof.
  intros Hnd Hlen.
  pose proof (existingTagsOf_whole w Hnd Hlen) as Hperm.
  split; [exact Hperm|].
  intros t Ht Hno. eapply Permutation_in; [symmetry; exact Hperm|].
  apply in_map_iff. exists t. split; [|exact Ht].
  unfold asExistingTag, usageRow, usageOf; cbn. now rewrite Hno.
Qed.

(** Beyond 50 tags the cap keeps the most used: a stored tag is either
    listed or used no more than any tag that is listed. *)
Theorem cap_keeps_most_used (w : World) (t : TagRow) (e : ExistingTag) :
  NoDup (map tag_id (tags w)) ->
  In t (tags w) -> In e (existingTagsOf w) ->
  In (asExistingTag (usageRow w t)) (existingTagsOf w) \/
  usageOf w t <= et_usageCount e.
Proof.
  intros Hnd Ht He.
  set (ranked := SQL.orderByDesc tu_usageCount (map (usageRow w) (tags w))).
  assert (Hres : existingTagsOf w
                 = map asExistingTag (firstn CONFIG.MAX_EXISTING_TAGS ranked)).
  { unfold existingTagsOf, getExistingTags; cbn [fst].
    now rewrite (selectTopTags_ranked w Hnd). }
  assert (Hin : In (usageRow w t) ranked).
  { eapply Permutation_in; [apply orderByDesc_perm|]. now apply in_map. }
  rewrite <- (firstn_skipn CONFIG.MAX_EXISTING_TAGS ranked) in Hin.
  rewrite Hres in *. apply in_app_or in Hin as [Hin|Hin].
  - left. now apply in_map.
  - right. apply in_map_iff in He as [u [<- Hu]].
    apply (limit_keeps_top tu_usageCount CONFIG.MAX_EXISTING_TAGS ranked
                           u (usageRow w t));
      [apply orderByDesc_descending | exact Hu | exact Hin].
Qed.

(** ** The statistics query, edges and totals *)

(** A range whose end lies before its start, or a store without links,
    gives no row at all. *)
Theorem stats_of_nothing (timeRange : TimeRange) (w : World) :
  (end_ timeRange < start timeRange)%Z \/ ticketsTags w = [] ->
  selectTagStats timeRange w = [].
Proof.
  intros H. unfold selectTagStats.
  assert (E : filter (fun r : TagRow * TicketTagRow => inRange timeRange (snd r))
                     (SQL.innerJoin onTagId (tags w) (ticketsTags w)) = []).
  { apply filter_none. intros [t l] Hin. cbn [snd].
    destruct H as [H|H].
    - unfold inRange. apply andb_false_iff.
      destruct (Z.leb_spec (start timeRange) (tt_createdAt l)); [|now left].
      right. apply Z.leb_gt. lia.
    - exfalso. unfold SQL.innerJoin in Hin. rewrite H in Hin.
      apply in_flat_map in Hin as [t' [_ Hin]]. exact Hin. }
  rewrite E. reflexivity.
Qed.

Lemma list_sum_perm (l l' : list nat) :
  Permutation l l' -> list_sum l = list_sum l'.
Proof. induction 1; simpl; lia. Qed.

(** Counting pairs by rows or by columns gives the same number. *)
Lemma double_count {X Y} (p : X -> Y -> bool) (xs : list X) (ys : list Y) :
  list_sum (map (fun x => List.length (filter (p x) ys)) xs)
  = list_sum (map (fun y => List.length (filter (fun x => p x y) xs)) ys).
Proof.
  induction xs as [|x xs IH]; simpl.
  - induction ys; simpl; auto.
  - rewrite IH. clear IH. induction ys as [|y ys IHy]; simpl; [reflexivity|].
    destruct (p x y); simpl; lia.
Qed.

Lemma matching_tags (l : TicketTagRow) (ts : list TagRow) :
  NoDup (map tag_id ts) ->
  List.length (filter (fun t => onTagId t l) ts)
  = if existsb (fun t => onTagId t l) ts then 1 else 0.
Proof.
  induction ts as [|t ts IH]; intros Hnd; simpl; [reflexivity|].
  inversion Hnd as [|? ? Hnot Hnd']; subst.
  destruct (onTagId t l) eqn:E; simpl; [|now apply IH].
  rewrite filter_none; [reflexivity|].
  intros t' Ht'. unfold onTagId in *.
  apply Nat.eqb_eq in E. apply Nat.eqb_neq. intros E'.
  apply Hnot. rewrite E, <- E'. now apply in_map.
Qed.

Lemma sum_counts_linked (timeRange : TimeRange) (w : World) (ts : list TagRow) :
  list_sum (map (fun t => count (statOf timeRange w t))
                (filter (hasLinksInRange timeRange w) ts))
  = list_sum (map (fun t => List.length (linksInRange timeRange w t)) ts).
Proof.
  induction ts as [|t ts IH]; [reflexivity|].
  cbn [filter map]. unfold hasLinksInRange at 1.
  assert (Hcons : forall a l, list_sum (a :: l) = a + list_sum l)
    by reflexivity.
  destruct (linksInRange timeRange w t) eqn:E.
  - rewrite Hcons, IH. reflexivity.
  - cbn [map]. rewrite !Hcons, IH. unfold statOf; cbn [count]. now rewrite E.
Qed.

Lemma sum_matching (timeRange : TimeRange) (w : World) (ls : list TicketTagRow) :
  NoDup (map tag_id (tags w)) ->
  list_sum (map (fun l => List.length
                            (filter (fun t => onTagId t l && inRange timeRange l)
                                    (tags w))) ls)
  = List.length (filter (countedLink timeRange w) ls).
Proof.
  intros Hnd.
  assert (Hcons : forall a l, list_sum (a :: l) = a + list_sum l)
    by reflexivity.
  induction ls as [|l ls IH]; [reflexivity|].
  cbn [map filter]. rewrite Hcons, IH. clear IH.
  unfold countedLink at 2.
  destruct (inRange timeRange l) eqn:E.
  - rewrite (filter_ext _ (fun t => onTagId t l))
      by (intros t; apply andb_true_r).
    rewrite (matching_tags l (tags w) Hnd). cbn [andb].
    destruct (existsb _ (tags w)); simpl; lia.
  - rewrite filter_none by (intros t _; apply andb_false_r).
    reflexivity.
Qed.

(** Over tags with distinct ids every statistics row stands for at least
    one link and has an average, and the counts of all rows add up to the
    number of links that fall in the range and point at a stored tag: a
    link is counted once, a link to a missing tag never. *)
Theorem stats_counts_add_up (timeRange : TimeRange) (w : World) :
  NoDup (map tag_id (tags w)) ->
  let rows := selectTagStats timeRange w in
  (forall row, In row rows -> 1 <= count row /\ avgConfidence row <> None) /\
  list_sum (map count rows)
  = List.length (filter (countedLink timeRange w) (ticketsTags w)).
Proof.
  intros Hnd. cbv zeta. rewrite (selectTagStats_ranked timeRange w Hnd). split.
  - intros row Hrow.
    eapply Permutation_in in Hrow; [|symmetry; apply orderByDesc_perm].
    apply in_map_iff in Hrow as [t [<- Ht]].
    apply filter_In in Ht as [_ Hhas]. unfold hasLinksInRange in Hhas.
    unfold statOf; cbn [count avgConfidence].
    destruct (linksInRange timeRange w t); [discriminate|].
    split; [simpl; lia | discriminate].
  - rewrite (list_sum_perm _ _ (Permutation_map count
               (Permutation_sym (orderByDesc_perm count _)))).
    rewrite map_map.
    transitivity (list_sum (map (fun t => List.length (linksInRange timeRange w t))
                                (tags w))).
    + apply sum_counts_linked.
    + unfold linksInRange.
      rewrite (double_count (fun t l => onTagId t l && inRange timeRange l)).
      now apply sum_matching.
Qed.

(** ** Queries on a sound store *)

Lemma NoDup_map_filter {X Y} (f : X -> Y) (p : X -> bool) (l : list X) :
  NoDup (map f l) -> NoDup (map f (filter p l)).
Proof.
  induction l as [|x l IH]; simpl; intros H; [constructor|].
  inversion H as [|? ? Hnot Hnd]; subst.
  destruct (p x); simpl; [|now apply IH].
  constructor; [|now apply IH].
  intros Hin. apply Hnot. apply in_map_iff in Hin as [y [Hy Hin]].
  apply filter_In in Hin as [Hin _]. rewrite <- Hy. now apply in_map.
Qed.

(** On a store whose tags have distinct ids and distinct names, neither
    query answers two rows with the same tag name. *)
Theorem query_rows_have_distinct_names (timeRange : TimeRange) (w : World) :
  NoDup (map tag_id (tags w)) -> namesUnique w ->
  NoDup (map tag (selectTagStats timeRange w)) /\
  NoDup (map et_name (existingTagsOf w)).
Proof.
  intros Hnd Hn. split.
  - rewrite (selectTagStats_ranked timeRange w Hnd).
    eapply Permutation_NoDup;
      [apply Permutation_map, orderByDesc_perm|].
    rewrite map_map. cbn [statOf tag].
    now apply NoDup_map_filter.
  - unfold existingTagsOf, getExistingTags; cbn [fst].
    rewrite (selectTopTags_ranked w Hnd), map_map; cbn [et_name].
    unfold SQL.limit. rewrite <- firstn_map.
    set (names := map tu_name (SQL.orderByDesc tu_usageCount
                                 (map (usageRow w) (tags w)))).
    assert (Hnames : NoDup names).
    { eapply Permutation_NoDup;
        [apply Permutation_map, orderByDesc_perm|].
      rewrite map_map. exact Hn. }
    rewrite <- (firstn_skipn CONFIG.MAX_EXISTING_TAGS names) in Hnames.
    now apply NoDup_app_remove_r in Hnames.
Qed.

Section Requests_sent.

Variable JSONContentZod : Type.
Variable extractTextWithoutImages : JSONContentZod -> string.
Variable extractImageUrls : JSONContentZod -> list string.

Abbreviation analyzeAndSave :=
  (analyzeAndSaveHotIssue JSONContentZod extractTextWithoutImages extractImageUrls).
Abbreviation request :=
  (requestFor JSONContentZod extractTextWithoutImages extractImageUrls).

(** With at most 50 tags stored, a configured run calls the completion
    service, and the request it sends shows the model every stored tag: its
    line, with the number of links that reference it, occurs in the system
    message. *)
Theorem request_shows_stored_tags
        cfg (service : Completion) ticketId title description w t :
  NoDup (map tag_id (tags w)) ->
  List.length (tags w) <= CONFIG.MAX_EXISTING_TAGS ->
  In t (tags w) ->
  configured cfg ->
  (exists rq,
      In (Invoke rq)
         (trace (analyzeAndSave cfg service ticketId title description) w)) /\
  forall rq,
    In (Invoke rq)
       (trace (analyzeAndSave cfg service ticketId title description) w) ->
    occursIn (tagLine {| et_name := tag_name t;
                         et_description := tag_description t;
                         et_usageCount := usageOf w t |})
             (rq_system rq).
Proof.
  intros Hnd Hlen Ht Hc.
  assert (Hsent : forall rq,
             In (Invoke rq)
                (trace (analyzeAndSave cfg service ticketId title description) w) ->
             rq = request cfg title description w).
  { intros rq. rewrite analyzeAndSaveHotIssue_trace. cbv zeta.
    destruct (configured_dec cfg); [|contradiction].
    destruct (service (request cfg title description w)) as [raw|e].
    - destruct (tagNamed _ w), (linksOf _ _ w); simpl; intros H;
        repeat (destruct H as [H|H]; try discriminate; try contradiction);
        now inversion H.
    - simpl. intros H.
      repeat (destruct H as [H|H]; try discriminate; try contradiction).
      now inversion H. }
  split.
  - exists (request cfg title description w).
    rewrite analyzeAndSaveHotIssue_trace. cbv zeta.
    destruct (configured_dec cfg); [|contradiction].
    destruct (service (request cfg title description w)); simpl; auto.
  - intros rq Hin. rewrite (Hsent rq Hin).
    unfold requestFor, requestWith; cbn [rq_system].
    apply tagLine_in_prompt.
    eapply Permutation_in; [symmetry; now apply existingTagsOf_whole|].
    apply in_map_iff. exists t. split; [reflexivity | exact Ht].
Qed.

End Requests_sent.

(** ** Further instances on the sample setting *)

Lemma link_then_linked_witness :
  fst (isTicketTagLinked "T2" 1
         (snd (linkTicketToTag "T1" 1 (Fin (1 # 2)%Q) Sample.emptyWorld)))
  = fst (isTicketTagLinked "T2" 1 Sample.emptyWorld).
Proof.
  destruct (link_then_linked "T1" 1 (Fin (1 # 2)%Q) Sample.emptyWorld)
    as [_ Hother].
  apply Hother. left. discriminate.
Defined.

Lemma linkTicketToTag_unguarded_witness :
  ~ linksUnique (snd (linkTicketToTag "T1" 1 (Fin (9 # 10)%Q) Sample.afterFirst)).
Proof.
  destruct (linkTicketToTag_unguarded "T1" 1 (Fin (9 # 10)%Q) Sample.afterFirst)
    as [_ [_ [_ [_ Hbreak]]]].
  apply Hbreak. vm_compute. discriminate.
Defined.

Lemma findOrCreateTag_frame_witness :
  namesUnique (snd (findOrCreateTag "B" "b" Sample.worldWithA)).
Proof.
  destruct (findOrCreateTag_frame "B" "b" Sample.worldWithA) as [_ [_ [_ Hn]]].
  apply Hn. unfold namesUnique. simpl. repeat constructor. simpl. tauto.
Defined.

Lemma completion_failure_writes_nothing_witness :
  fst (Sample.run Sample.cfg Sample.fails "T1" Sample.worldWithA)
  = Rejected (ServiceError "timeout") /\
  tags (snd (Sample.run Sample.cfg Sample.fails "T1" Sample.worldWithA))
  = tags Sample.worldWithA.
Proof.
  destruct (completion_failure_writes_nothing
              Sample.Doc Sample.doc_text Sample.doc_images Sample.cfg
              Sample.fails "T1" "gateway" Sample.ticket Sample.worldWithA
              (ServiceError "timeout")) as [Hr [Ht _]].
  - split; reflexivity.
  - reflexivity.
  - split; [exact Hr | exact Ht].
Defined.

Lemma run_appends_only_witness :
  exists newTags newLinks,
    tags Sample.afterFirst = tags Sample.emptyWorld ++ newTags /\
    ticketsTags Sample.afterFirst = ticketsTags Sample.emptyWorld ++ newLinks /\
    List.length newTags <= 1 /\ List.length newLinks <= 1.
Proof.
  destruct (run_appends_only
              Sample.Doc Sample.doc_text Sample.doc_images Sample.cfg
              (Sample.answers (Sample.rawWith "net" "ingress 502"
                                              (Fin (42 # 100)%Q)))
              "T1" "gateway" Sample.ticket Sample.emptyWorld)
    as [newTags [newLinks [Ht [Hl [Hnt [Hnl _]]]]]].
  exists newTags, newLinks. auto.
Defined.

Lemma resolved_run_links_ticket_witness :
  exists e l,
    tagNamed "net" Sample.afterFirst = Some e /\
    In l (ticketsTags Sample.afterFirst) /\
    tt_ticketId l = "T1" /\ tt_tagId l = tag_id e.
Proof.
  destruct (resolved_run_links_ticket
              Sample.Doc Sample.doc_text Sample.doc_images Sample.cfg
              (Sample.answers (Sample.rawWith "net" "ingress 502"
                                              (Fin (42 # 100)%Q)))
              "T1" "gateway" Sample.ticket Sample.emptyWorld
              (Sample.rawWith "net" "ingress 502" (Fin (42 # 100)%Q)))
    as [_ [e [l [He [_ [Hl [Ht Hg]]]]]]].
  - split; reflexivity.
  - reflexivity.
  - exists e, l. auto.
Defined.

Lemma writes_follow_the_completion_witness :
  List.length (filter isInvoke (trace Sample.firstRun Sample.emptyWorld)) <= 1.
Proof.
  destruct (writes_follow_the_completion
              Sample.Doc Sample.doc_text Sample.doc_images Sample.cfg
              (Sample.answers (Sample.rawWith "net" "ingress 502"
                                              (Fin (42 # 100)%Q)))
              "T1" "gateway" Sample.ticket Sample.emptyWorld) as [H _].
  exact H.
Defined.

Lemma reachable_store_sound_witness :
  namesUnique Sample.afterSecond /\ linksReferTags Sample.afterSecond /\
  linksKeyed Sample.afterSecond /\ rowsGenerated Sample.afterSecond.
Proof.
  apply (reachable_store_sound Sample.Doc Sample.doc_text Sample.doc_images).
  apply reach_run. apply reach_run. apply (reach_empty _ _ _ 1000%Z).
Defined.

Lemma reachable_invariants_witness :
  tagsKeyed Sample.afterSecond /\ linksUnique Sample.afterSecond.
Proof.
  apply (reachable_invariants Sample.Doc Sample.doc_text Sample.doc_images).
  apply reach_run. apply reach_run. apply (reach_empty _ _ _ 1000%Z).
Defined.

Lemma same_name_runs_link_once_witness :
  tags Sample.afterSecond = tags Sample.afterFirst /\
  ticketsTags Sample.afterSecond = ticketsTags Sample.afterFirst /\
  List.length (linksOf "T1" 1 Sample.afterSecond) = 1.
Proof.
  destruct (same_name_runs_link_once
              Sample.Doc Sample.doc_text Sample.doc_images
              Sample.cfg (Sample.answers (Sample.rawWith "net" "ingress 502"
                                                         (Fin (42 # 100)%Q)))
              "gateway" Sample.ticket
              Sample.cfg (Sample.answers (Sample.rawWith "net" "gateway timeout"
                                                         (Fin (9 # 10)%Q)))
              "gateway" Sample.ticket "T1" Sample.emptyWorld
              (Sample.rawWith "net" "ingress 502" (Fin (42 # 100)%Q))
              (Sample.rawWith "net" "gateway timeout" (Fin (9 # 10)%Q)))
    as [_ [Ht [Hl Hone]]].
  - split; reflexivity.
  - split; reflexivity.
  - reflexivity.
  - reflexivity.
  - reflexivity.
  - vm_compute. lia.
  - split; [exact Ht|]. split; [exact Hl | exact Hone].
Defined.

Lemma fresh_link_shows_in_stats_witness :
  exists row,
    In row (selectTagStats {| start := 0%Z; end_ := 2000%Z |} Sample.afterFirst) /\
    tag row = "net" /\ 1 <= count row.
Proof.
  apply (fresh_link_shows_in_stats
           Sample.Doc Sample.doc_text Sample.doc_images Sample.cfg
           (Sample.answers (Sample.rawWith "net" "ingress 502"
                                           (Fin (42 # 100)%Q)))
           "T1" "gateway" Sample.ticket Sample.emptyWorld
           (Sample.rawWith "net" "ingress 502" (Fin (42 # 100)%Q))
           {| start := 0%Z; end_ := 2000%Z |}).
  - split; reflexivity.
  - reflexivity.
  - split; simpl; constructor.
  - reflexivity.
  - simpl. lia.
Defined.

Lemma analysis_well_formed_witness :
  AIAnalysisResult.name (normalizeResult Sample.emptyNamed) <> EmptyString /\
  AIAnalysisResult.description (normalizeResult Sample.emptyNamed)
  <> EmptyString /\
  unitInterval (AIAnalysisResult.confidence (normalizeResult Sample.emptyNamed)).
Proof.
  apply (analysis_well_formed
           Sample.Doc Sample.doc_text Sample.doc_images Sample.cfg
           (Sample.answers Sample.emptyNamed) "gateway" Sample.ticket []
           Sample.emptyWorld).
  reflexivity.
Defined.

Lemma schema_conforming_answer_kept_witness :
  normalizeResult Sample.conforming
  = {| AIAnalysisResult.name := "net";
       AIAnalysisResult.description := "ingress 502";
       AIAnalysisResult.confidence := Fin (42 # 100)%Q;
       AIAnalysisResult.reasoning := Null |}.
Proof.
  apply (schema_conforming_answer_kept Sample.conforming "net" "ingress 502"
                                       (Fin (42 # 100)%Q));
    try reflexivity; discriminate.
Defined.

Lemma prompt_lists_vocabulary_witness :
  occursIn "暂无现有标签" (buildSystemPrompt []).
Proof.
  destruct (prompt_lists_vocabulary []) as [_ H]. apply H. reflexivity.
Defined.

Lemma sample_tags_keyed : NoDup (map tag_id (tags Sample.statsWorld)).
Proof. simpl. repeat constructor; simpl; intuition discriminate. Qed.

Lemma big_tags_keyed : NoDup (map tag_id (tags Sample.bigWorld)).
Proof.
  unfold Sample.bigWorld, Sample.manyTags; cbn [tags].
  rewrite map_map; cbn [tag_id]. rewrite seq_shift. apply seq_NoDup.
Qed.

Lemma small_vocabulary_listed_whole_witness :
  Permutation (existingTagsOf Sample.statsWorld)
              (map (fun t => asExistingTag (usageRow Sample.statsWorld t))
                   (tags Sample.statsWorld)).
Proof.
  destruct (small_vocabulary_listed_whole Sample.statsWorld) as [H _].
  - exact sample_tags_keyed.
  - vm_compute. lia.
  - exact H.
Defined.

Lemma cap_keeps_most_used_witness :
  In (asExistingTag (usageRow Sample.bigWorld (hd Sample.tagA (tags Sample.bigWorld))))
     (existingTagsOf Sample.bigWorld) \/
  usageOf Sample.bigWorld (hd Sample.tagA (tags Sample.bigWorld)) <= 2.
Proof.
  apply (cap_keeps_most_used Sample.bigWorld
           (hd Sample.tagA (tags Sample.bigWorld))
           {| et_name := "2"; et_description := "d"; et_usageCount := 2 |}).
  - exact big_tags_keyed.
  - vm_compute. left. reflexivity.
  - vm_compute. left. reflexivity.
Defined.

Lemma stats_of_nothing_witness :
  selectTagStats Sample.invertedRange Sample.statsWorld = [].
Proof.
  apply stats_of_nothing. left. simpl. lia.
Defined.

Lemma stats_counts_add_up_witness :
  list_sum (map count (selectTagStats Sample.range Sample.statsWorld))
  = List.length (filter (countedLink Sample.range Sample.statsWorld)
                        (ticketsTags Sample.statsWorld)).
Proof.
  destruct (stats_counts_add_up Sample.range Sample.statsWorld sample_tags_keyed)
    as [_ H].
  exact H.
Defined.

Lemma query_rows_have_distinct_names_witness :
  NoDup (map tag (selectTagStats Sample.range Sample.statsWorld)) /\
  NoDup (map et_name (existingTagsOf Sample.statsWorld)).
Proof.
  apply query_rows_have_distinct_names.
  - exact sample_tags_keyed.
  - unfold namesUnique. simpl. repeat constructor; simpl; intuition discriminate.
Defined.

Lemma request_shows_stored_tags_witness :
  exists rq,
    In (Invoke rq)
       (trace (Sample.run Sample.cfg (Sample.answers Sample.conforming) "T1")
              Sample.worldWithA) /\
    occursIn (tagLine {| et_name := "A"; et_description := "a";
                         et_usageCount := 0 |})
             (rq_system rq).
Proof.
  destruct (request_shows_stored_tags
              Sample.Doc Sample.doc_text Sample.doc_images Sample.cfg
              (Sample.answers Sample.conforming) "T1" "gateway" Sample.ticket
              Sample.worldWithA Sample.tagA) as [[rq Hrq] Hall].
  - simpl. repeat constructor. simpl. tauto.
  - vm_compute. lia.
  - left. reflexivity.
  - split; reflexivity.
  - exists rq. split; [exact Hrq | exact (Hall rq Hrq)].
Defined.
